(** * maskQL: flattening codec and dirty-tracking session

    A shallow embedding of [src/flatten.js], [src/types.js] and
    [src/index.js], and the properties of the specification proved (or
    refuted) against it.

    Modelling conventions.
    - A JavaScript string is a [string]: a sequence of code units below 256,
      so that [String.length] is the [.length] of the source.
    - A JavaScript number is known by the text [String] writes for it,
      which is all the library does with a number besides comparing it and
      asking whether it is [NaN]; [Number], which reads a text, is an
      operation of the class [Engine].
    - A plain object is the list of its own enumerable properties in key
      enumeration order, together with its prototype.  A property written
      for the first time goes to the end, one written again keeps its place
      (keys that spell an array index, which an engine enumerates before the
      others, are not set apart).  The prototype is [Object.prototype]
      unless an assignment to [__proto__] has replaced it: the operators
      [in] and [o[k]] see the members of [Object.prototype], which are
      those the language gives it and no other, and [o["__proto__"] = v]
      goes to its accessor.  What an object of the
      caller offers once it has been made a prototype is the one operation
      of the class [Engine].
    - A [Set] is the list of its members in insertion order.
    - [JSON.stringify] and [JSON.parse] are operations of the class
      [Engine] too; [engine_model] is an executable instance used to
      evaluate examples.
    - The D1 database is a table of rows together with the trace of the
      calls that reached it; a call that D1 rejects is an input of the
      operation that awaits it, the [Error] object it is rejected with.  An
      [async] method is the function from the state before the call to the
      state once its promise has settled. *)

From Stdlib Require Import List String Ascii ZArith Lia Bool Arith.
From Stdlib Require Import DecimalString DecimalPos DecimalZ.
Import ListNotations.

Local Open Scope string_scope.
Local Open Scope list_scope.

Infix "+++" := String.append (right associativity, at level 60).

(* ------------------------------------------------------------------ *)
(** ** Strings as the source uses them *)

(** The double quote, built from its code. *)
Definition dquote : string := String (ascii_of_nat 34) EmptyString.

(** [s] between double quotes, as in the messages of the source. *)
Definition in_quotes (s : string) : string :=
  String "034" (s +++ String "034" EmptyString).

(** [s.startsWith(p)]. *)
Fixpoint startsWith (p s : string) : bool :=
  match p, s with
  | EmptyString, _ => true
  | String a p', String b s' => Ascii.eqb a b && startsWith p' s'
  | String _ _, EmptyString => false
  end.

Fixpoint string_rev_onto (acc s : string) : string :=
  match s with
  | EmptyString => acc
  | String a s' => string_rev_onto (String a acc) s'
  end.

Definition string_rev (s : string) : string := string_rev_onto EmptyString s.

(** [s.endsWith(p)]. *)
Definition endsWith (p s : string) : bool :=
  startsWith (string_rev p) (string_rev s).

(** [s.includes(p)]. *)
Fixpoint includes (p s : string) : bool :=
  startsWith p s ||
  match s with
  | EmptyString => false
  | String _ s' => includes p s'
  end.

(** White space of [String.prototype.trim] among the code units below 256:
    TAB, LF, VT, FF, CR, SPACE and NBSP. *)
Definition is_js_space (c : ascii) : bool :=
  let n := nat_of_ascii c in
  (Nat.leb 9 n && Nat.leb n 13) || Nat.eqb n 32 || Nat.eqb n 160.

Fixpoint trimStart (s : string) : string :=
  match s with
  | EmptyString => EmptyString
  | String a s' => if is_js_space a then trimStart s' else s
  end.

Definition trim (s : string) : string :=
  string_rev (trimStart (string_rev (trimStart s))).

(** [s.split(c)] for a one-character separator: never the empty list. *)
Fixpoint split (c : ascii) (s : string) : list string :=
  match s with
  | EmptyString => [EmptyString]
  | String a s' =>
      if Ascii.eqb a c then EmptyString :: split c s'
      else match split c s' with
           | [] => [String a EmptyString]
           | w :: ws => String a w :: ws
           end
  end.

(** A string in a boolean position: true unless empty. *)
Definition truthy (s : string) : bool :=
  match s with EmptyString => false | String _ _ => true end.

(* ------------------------------------------------------------------ *)
(** ** Own properties, and Sets *)

Section Dict.
Context {A : Type}.

(** [Object.hasOwn(o, k)]. *)
Fixpoint hasOwn (k : string) (o : list (string * A)) : bool :=
  match o with
  | [] => false
  | (k', _) :: o' => String.eqb k k' || hasOwn k o'
  end.

(** The own property [k] of [o], when it has one. *)
Fixpoint getOwn (k : string) (o : list (string * A)) : option A :=
  match o with
  | [] => None
  | (k', v) :: o' => if String.eqb k k' then Some v else getOwn k o'
  end.

(** The own properties once [k] is an own property that holds [v]. *)
Fixpoint setOwn (k : string) (v : A) (o : list (string * A)) : list (string * A) :=
  match o with
  | [] => [(k, v)]
  | (k', v') :: o' =>
      if String.eqb k k' then (k', v) :: o' else (k', v') :: setOwn k v o'
  end.

(** The own properties once [k] is none of them. *)
Fixpoint deleteOwn (k : string) (o : list (string * A)) : list (string * A) :=
  match o with
  | [] => []
  | (k', v') :: o' =>
      if String.eqb k k' then deleteOwn k o' else (k', v') :: deleteOwn k o'
  end.

(** [Object.keys(o)]. *)
Definition keys (o : list (string * A)) : list string := map fst o.

End Dict.

(** [set.has(x)]. *)
Fixpoint set_has (x : string) (s : list string) : bool :=
  match s with
  | [] => false
  | y :: s' => String.eqb x y || set_has x s'
  end.

(** [set.add(x)]. *)
Definition set_add (x : string) (s : list string) : list string :=
  if set_has x s then s else s ++ [x].

(** [set.delete(x)]. *)
Fixpoint set_delete (x : string) (s : list string) : list string :=
  match s with
  | [] => []
  | y :: s' => if String.eqb x y then set_delete x s' else y :: set_delete x s'
  end.

(** [set.size > 0]. *)
Definition nonempty {A : Type} (s : list A) : bool :=
  match s with [] => false | _ :: _ => true end.

(* ------------------------------------------------------------------ *)
(** ** What every object inherits *)

(** The names of the properties of [Object.prototype]: its methods, and the
    accessor [__proto__]. *)
Definition Object_prototype_names : list string :=
  ["constructor"; "__defineGetter__"; "__defineSetter__"; "hasOwnProperty";
   "__lookupGetter__"; "__lookupSetter__"; "isPrototypeOf";
   "propertyIsEnumerable"; "toString"; "valueOf"; "__proto__";
   "toLocaleString"].

(** [k in Object.prototype]. *)
Definition inherited (k : string) : bool := set_has k Object_prototype_names.

(** What reading a property gives: a value, or a member of
    [Object.prototype] that is no value of the model (one of its methods, or
    the object [Object.prototype] itself, which its accessor [__proto__]
    answers). *)
Inductive member (A : Type) : Type :=
| Held (v : A)
| Native_function (name : string)
| Native_Object_prototype.

Arguments Held {A} v.
Arguments Native_function {A} name.
Arguments Native_Object_prototype {A}.

(** [String(f)] for a method of the engine. *)
Definition String_of_function (name : string) : string :=
  "function " +++ name +++ "() { [native code] }".

(* ------------------------------------------------------------------ *)
(** ** Values *)

(** A number, known by the text [String] writes for it: every number has
    one such text and no two numbers that [===] tells apart share it
    ([0] and [-0], which it does not tell apart, are both written [0]).
    [NaN] is the number written [NaN]. *)
Record number : Type := Num { text : string }.

(** [String(n)]. *)
Definition String_of_number (n : number) : string := text n.

(** [isNaN(n)]. *)
Definition isNaN (n : number) : bool := String.eqb (text n) "NaN".

(** [n === m] on numbers: [NaN] equals nothing, itself included. *)
Definition number_eqb (n m : number) : bool :=
  negb (isNaN n) && String.eqb (text n) (text m).

(** The number an integer denotes, for an integer that a number holds
    exactly (as every integer up to 2^53 in absolute value is) and that
    [String] writes with all its digits (those below 10^21). *)
Definition int (z : Z) : number := Num (NilZero.string_of_int (Z.to_int z)).

Coercion int : Z >-> number.
Bind Scope Z_scope with number.

(** The values the library is handed: the JSON values, [undefined] and
    [Date] objects (a date is its ISO-8601 text).  An object or an array of
    [value] has the prototype it was created with, and its properties are
    plain ones: data properties that can be read, written and deleted. *)
#[warnings="-register-all"]
Inductive value : Type :=
| VNull
| VUndef
| VBool (b : bool)
| VNum (n : number)
| VStr (s : string)
| VArr (elems : list value)
| VObj (props : list (string * value))
| VDate (iso : string).

(** [v === null || typeof v === 'object']: what the accessor [__proto__]
    takes for a prototype. *)
Definition is_object_or_null (v : value) : bool :=
  match v with
  | VNull | VArr _ | VObj _ | VDate _ => true
  | VUndef | VBool _ | VNum _ | VStr _ => false
  end.

(** A value as a caller holds it: the value and the identity of the object
    it is, which is what [===] compares on arrays, objects and dates.  The
    same array passed twice has the same [ref], whatever was done to its
    elements in between; on a primitive the [ref] means nothing. *)
Record jsval : Type := JsVal { ref : nat; val : value }.

Definition undefined : jsval := JsVal 0 VUndef.

(** [a === b]. *)
Definition strict_eq (a b : jsval) : bool :=
  match val a, val b with
  | VNull, VNull => true
  | VUndef, VUndef => true
  | VBool x, VBool y => Bool.eqb x y
  | VNum x, VNum y => number_eqb x y
  | VStr x, VStr y => String.eqb x y
  | (VArr _ | VObj _ | VDate _), (VArr _ | VObj _ | VDate _) =>
      Nat.eqb (ref a) (ref b)
  | _, _ => false
  end.

(** [m === v] for what a property read gave: a member of
    [Object.prototype] is no value a caller of the model passes. *)
Definition member_eq (m : member jsval) (v : jsval) : bool :=
  match m with
  | Held x => strict_eq x v
  | Native_function _ | Native_Object_prototype => false
  end.

(** What the embedding takes from the engine as given:
    - [JSON.stringify] on arrays and objects, and [JSON.parse], which is
      [None] where the source's [JSON.parse] throws;
    - [Number(s)] on a string;
    - [lookup v k], what reading the property [k] gives on an object whose
      own properties do not have it and whose prototype has been replaced
      by the object [v] of the caller: the property as [v] or the chain of
      [v] has it, [None] when they do not. *)
Class Engine : Type := {
  JSON_stringify : value -> string;
  JSON_parse : string -> option value;
  Number : string -> number;
  lookup : jsval -> string -> option (member jsval)
}.

(** ** flatten.js *)

Section Flatten.
Context `{Engine}.

(** [result[k] = v] in [flatten], where [result] has the prototype
    [Object.prototype] and [v] is a string, a number or a boolean, as every
    value [flatten] writes is: the accessor [__proto__] ignores such a
    value, so that the assignment does nothing when [k] is [__proto__] and
    no own property of [result]. *)
Definition js_put (k : string) (v : value) (result : list (string * value))
  : list (string * value) :=
  if hasOwn k result || negb (String.eqb k "__proto__") then setOwn k v result
  else result.

(** [flatten(obj, prefix, result)]: [result] is threaded through the calls
    and returned. *)
Fixpoint flatten (obj : value) (prefix : string)
    (result : list (string * value)) : list (string * value) :=
  match obj with
  | VNull | VUndef =>
      if truthy prefix then js_put prefix (VStr "") result else result
  | VBool _ | VNum _ | VStr _ =>
      if truthy prefix then js_put prefix obj result else result
  | VArr _ =>
      if truthy prefix then js_put prefix (VStr (JSON_stringify obj)) result
      else result
  | VDate _ =>
      (* an object that is no array and has no own enumerable key *)
      if truthy prefix then js_put prefix (VStr "{}") result else result
  | VObj [] =>
      if truthy prefix then js_put prefix (VStr "{}") result else result
  | VObj props =>
      (fix each (props : list (string * value))
           (result : list (string * value)) : list (string * value) :=
         match props with
         | [] => result
         | (key, val) :: rest =>
             let newPrefix :=
               if truthy prefix then prefix +++ "." +++ key else key in
             each rest
               match val with
               | VNull | VUndef => js_put newPrefix (VStr "") result
               | VArr _ => js_put newPrefix (VStr (JSON_stringify val)) result
               | VDate iso => js_put newPrefix (VStr iso) result
               | VObj [] => js_put newPrefix (VStr "{}") result
               | VObj (_ :: _) => flatten val newPrefix result
               | VBool _ | VNum _ | VStr _ => js_put newPrefix val result
               end
         end) props result
  end.

(** [parseValue(value)]. *)
Definition parseValue (val : value) : value :=
  match val with
  | VStr s =>
      if String.eqb s "" then VNull
      else if String.eqb s "{}" then VObj []
      else if (startsWith "[" s && endsWith "]" s)
              || (startsWith "{" s && endsWith "}" s)
      then match JSON_parse s with
           | Some parsed => parsed
           | None => val
           end
      else val
  | _ => val
  end.

(** [current[key]] on an object of [unflatten], whose prototype is
    [Object.prototype]. *)
Definition js_read (key : string) (current : list (string * value))
  : member value :=
  match getOwn key current with
  | Some v => Held v
  | None =>
      if String.eqb key "__proto__" then Native_Object_prototype
      else if String.eqb key "constructor" then Native_function "Object"
      else if inherited key then Native_function key
      else Held VUndef
  end.

(** [current[key] = v] on such an object: its own properties after the
    assignment.  When [key] is [__proto__] and no own property, the accessor
    of [Object.prototype] takes the value: it ignores one that is no object
    and not [null], and makes any other the prototype of [current], which
    is then no object of the model: [None]. *)
Definition js_write (key : string) (v : value) (current : list (string * value))
  : option (list (string * value)) :=
  if hasOwn key current || negb (String.eqb key "__proto__")
  then Some (setOwn key v current)
  else if is_object_or_null v then None
  else Some current.

(** What [current[key]] is once the loop of [unflatten] has stepped through
    an intermediate key: the properties of the object found there, or of the
    fresh [{}] that replaces a missing or falsy value, a primitive or an
    inherited method.  An array or date found there is kept by the source
    and then written to by name, and at [__proto__] the loop steps into
    [Object.prototype] and writes on it; [value] can hold neither:
    [None]. *)
Definition descend (key : string) (current : list (string * value))
  : option (list (string * value)) :=
  match js_read key current with
  | Held (VObj props) => Some props
  | Held (VArr _ | VDate _) => None
  | Held (VNull | VUndef | VBool _ | VNum _ | VStr _) => Some []
  | Native_function _ => Some []
  | Native_Object_prototype => None
  end.

(** The inner loop of [unflatten] over the keys of one path, from the
    object [current]. *)
Fixpoint assign (keys : list string) (leaf : value)
    (current : list (string * value)) : option (list (string * value)) :=
  match keys with
  | [] => Some current
  | [key] => js_write key leaf current
  | key :: rest =>
      match descend key current with
      | None => None
      | Some child =>
          match assign rest leaf child with
          | None => None
          | Some child' => Some (setOwn key (VObj child') current)
          end
      end
  end.

(** The outer loop of [unflatten], over [Object.entries(flatObj)]. *)
Fixpoint unflatten_entries (entries : list (string * value))
    (result : list (string * value)) : option (list (string * value)) :=
  match entries with
  | [] => Some result
  | (path, val) :: rest =>
      match assign (split "." path) (parseValue val) result with
      | None => None
      | Some result' => unflatten_entries rest result'
      end
  end.

(** [unflatten(flatObj)]. *)
Definition unflatten (flatObj : list (string * value)) : option value :=
  option_map VObj (unflatten_entries flatObj []).

End Flatten.

(* ------------------------------------------------------------------ *)
(** ** types.js *)

Section Types.
Context `{Engine}.

(** [getValueType(value)]. *)
Definition getValueType (val : value) : string :=
  match val with
  | VNull => "null"
  | VUndef => "undefined"
  | VArr _ => "array"
  | VObj _ | VDate _ => "object"
  | VStr _ => "string"
  | VNum _ => "number"
  | VBool _ => "boolean"
  end.

(** [String(value)] on the primitives that reach it. *)
Definition String_of_bool (b : bool) : string :=
  if b then "true" else "false".

(** [serializeValue(value)]. *)
Definition serializeValue (val : value) : string :=
  match val with
  | VNull | VUndef => ""
  | VStr s => s
  | VNum n => String_of_number n
  | VBool b => String_of_bool b
  | VArr _ | VObj _ | VDate _ => JSON_stringify val
  end.

(** [deserializeValue(serialized, valueType)]. *)
Definition deserializeValue (serialized valueType : string) : value :=
  if String.eqb valueType "null" || String.eqb serialized "" then VNull
  else if String.eqb valueType "undefined" then VUndef
  else if String.eqb valueType "string" then VStr serialized
  else if String.eqb valueType "number" then
    let num := Number serialized in
    if isNaN num then VNum 0 else VNum num
  else if String.eqb valueType "boolean" then VBool (String.eqb serialized "true")
  else if String.eqb valueType "array" || String.eqb valueType "object" then
    match JSON_parse serialized with
    | Some parsed => parsed
    | None => if String.eqb valueType "array" then VArr [] else VObj []
    end
  else VStr serialized.

(** [toStorageFormat(value)]: the pair [{value, type}]. *)
Definition toStorageFormat (val : value) : string * string :=
  (serializeValue val, getValueType val).

(** [fromStorageFormat(value, type)]. *)
Definition fromStorageFormat (val type : string) : value :=
  deserializeValue val type.

(** [toStorageFormat(m)] for what a property read gave.  A method has the
    [typeof] [function] and is written by [String]; [Object.prototype] is an
    object without enumerable properties. *)
Definition toStorageFormat_member (m : member jsval) : string * string :=
  match m with
  | Held v => toStorageFormat (val v)
  | Native_function name => (String_of_function name, "function")
  | Native_Object_prototype => (JSON_stringify (VObj []), "object")
  end.

End Types.

(** [isValidPath(path)]. *)
Definition isValidPath (path : string) : bool :=
  if negb (truthy path) then false
  else if negb (String.eqb (trim path) path) then false
  else if startsWith "." path || endsWith "." path then false
  else if includes ".." path then false
  else true.

(** [isValidObjId(objId)]. *)
Definition isValidObjId (objId : string) : bool :=
  if negb (truthy objId) then false
  else if negb (String.eqb (trim objId) objId) then false
  else if Nat.ltb 255 (String.length objId) then false
  else true.

(* ------------------------------------------------------------------ *)
(** ** Objects used as dictionaries *)

(** The prototype of an object created by [{}]: [Object.prototype], until an
    assignment to [__proto__] replaces it by [null] or by an object of the
    caller. *)
Inductive prototype : Type :=
| Object_prototype
| Null_prototype
| Value_prototype (v : jsval).

(** An object that maps paths to values: its prototype and its own
    properties. *)
Record object : Type := Object {
  proto : prototype;
  own :> list (string * jsval)
}.

(** [{}]. *)
Definition empty_object : object := Object Object_prototype [].

(** [{ ...o }]: a new object with the own properties of [o]. *)
Definition spread (o : object) : object := Object Object_prototype (own o).

(** Whether a plain object of the caller has an own property [__proto__]
    (as [JSON.parse] creates one), which hides the accessor from the objects
    that have it for prototype. *)
Definition defines_proto (v : jsval) : bool :=
  match val v with
  | VObj props => hasOwn "__proto__" props
  | _ => false
  end.

(** Whether an assignment to [__proto__] on an object with this prototype
    and no such own property reaches the accessor of [Object.prototype]. *)
Definition reaches_accessor (p : prototype) : bool :=
  match p with
  | Object_prototype => true
  | Null_prototype => false
  | Value_prototype v => negb (defines_proto v)
  end.

Section Objects.
Context `{Engine}.

(** [k in o]. *)
Definition js_in (k : string) (o : object) : bool :=
  hasOwn k o ||
  match proto o with
  | Object_prototype => inherited k
  | Null_prototype => false
  | Value_prototype v =>
      match lookup v k with Some _ => true | None => false end
  end.

(** [o[k]], with [undefined] where no object of the chain has [k]. *)
Definition js_index (o : object) (k : string) : member jsval :=
  match getOwn k o with
  | Some v => Held v
  | None =>
      match proto o with
      | Object_prototype =>
          if String.eqb k "__proto__" then Native_Object_prototype
          else if String.eqb k "constructor" then Native_function "Object"
          else if inherited k then Native_function k
          else Held undefined
      | Null_prototype => Held undefined
      | Value_prototype v =>
          match lookup v k with
          | Some m => m
          | None => Held undefined
          end
      end
  end.

End Objects.

(** [o[k] = v].  An own property is written in place.  Otherwise the
    assignment creates the own property, unless [k] is [__proto__] and the
    chain of [o] leads to the accessor of [Object.prototype]: the accessor
    makes [null] or an object the prototype of [o] and ignores any other
    value. *)
Definition js_set (k : string) (v : jsval) (o : object) : object :=
  if negb (hasOwn k o) && String.eqb k "__proto__" && reaches_accessor (proto o)
  then
    match val v with
    | VNull => Object Null_prototype (own o)
    | VArr _ | VObj _ | VDate _ => Object (Value_prototype v) (own o)
    | VUndef | VBool _ | VNum _ | VStr _ => o
    end
  else Object (proto o) (setOwn k v o).

(** [delete o[k]]. *)
Definition js_delete (k : string) (o : object) : object :=
  Object (proto o) (deleteOwn k o).

(* ------------------------------------------------------------------ *)
(** ** Errors *)

(** An [Error] object: its message and, when it was constructed with one,
    its cause. *)
#[warnings="-register-all"]
Inductive js_error : Type :=
| JsError (message : string) (cause : option js_error).

(** [error.message]. *)
Definition message (e : js_error) : string :=
  match e with JsError m _ => m end.

(** [error.cause]. *)
Definition cause (e : js_error) : option js_error :=
  match e with JsError _ c => c end.

(** [new Error(message)]. *)
Definition new_Error (m : string) : js_error := JsError m None.

Coercion new_Error : string >-> js_error.

(** How a call of the library ends. *)
Inductive outcome (A : Type) : Type :=
| Returned (a : A)
| Thrown (e : js_error).

Arguments Returned {A} a.
Arguments Thrown {A} e.

(* ------------------------------------------------------------------ *)
(** ** The D1 database *)

(** A row of the table; the two timestamps are not modelled. *)
Record row : Type := Row {
  obj_id : string;
  key_path : string;
  value_text : string;
  value_type : string
}.

(** The two statements [save] prepares. *)
Inductive statement : Type :=
| DELETE (objId path : string)
| UPSERT (objId path serializedValue valueType : string).

(** The calls that reach D1. *)
Inductive d1_call : Type :=
| D1_all (objId : string)
| D1_batch (statements : list statement)
| D1_run (objId : string)
| D1_first (objId : string).

(** The environment of a session: the table, the calls D1 received (oldest
    first), the lines of [console.warn], and the next unused object
    identity. *)
Record world : Type := World {
  table : list row;
  calls : list d1_call;
  warnings : list string;
  heap_next : nat
}.

Definition row_is (objId path : string) (r : row) : bool :=
  String.eqb (obj_id r) objId && String.eqb (key_path r) path.

(** [INSERT ... ON CONFLICT(obj_id, key_path) DO UPDATE]. *)
Fixpoint upsert (objId path serializedValue valueType : string)
    (t : list row) : list row :=
  match t with
  | [] => [Row objId path serializedValue valueType]
  | r :: t' =>
      if row_is objId path r then Row objId path serializedValue valueType :: t'
      else r :: upsert objId path serializedValue valueType t'
  end.

Definition execute (t : list row) (st : statement) : list row :=
  match st with
  | DELETE objId path => filter (fun r => negb (row_is objId path r)) t
  | UPSERT objId path sv vt => upsert objId path sv vt t
  end.

(** A batch that D1 accepts: every statement in order. *)
Definition batch (statements : list statement) (t : list row) : list row :=
  fold_left execute statements t.

(** [SELECT ... WHERE obj_id = ?]. *)
Definition select (objId : string) (t : list row) : list row :=
  filter (fun r => String.eqb (obj_id r) objId) t.

(** [DELETE FROM ... WHERE obj_id = ?]. *)
Definition delete_rows (objId : string) (t : list row) : list row :=
  filter (fun r => negb (String.eqb (obj_id r) objId)) t.

Definition called (c : d1_call) (w : world) : world :=
  World (table w) (calls w ++ [c]) (warnings w) (heap_next w).

Definition with_table (t : list row) (w : world) : world :=
  World t (calls w) (warnings w) (heap_next w).

Definition warned (line : string) (w : world) : world :=
  World (table w) (calls w) (warnings w ++ [line]) (heap_next w).

Definition allocated (n : nat) (w : world) : world :=
  World (table w) (calls w) (warnings w) (heap_next w + n).

(* ------------------------------------------------------------------ *)
(** ** index.js: the class [MaskQL] *)

Module MaskQL.

(** The fields of an instance that change after construction. *)
Record session : Type := Session {
  currentObjId : option string;
  flatData : object;
  originalFlatData : object;
  dirtyPaths : list string;
  deletedPaths : list string
}.

(** The instance the constructor returns. *)
Definition constructor : session :=
  Session None empty_object empty_object [] [].

(** [!this.currentObjId]. *)
Definition no_object (s : session) : bool :=
  match currentObjId s with
  | None => true
  | Some objId => negb (truthy objId)
  end.

Definition not_loaded : string := "No object loaded. Call use() first.".

(** [hasUnsavedChanges()]. *)
Definition hasUnsavedChanges (s : session) : bool :=
  nonempty (dirtyPaths s) || nonempty (deletedPaths s).

(** [getCurrentObjId()]. *)
Definition getCurrentObjId (s : session) : option string := currentObjId s.

Section Methods.
Context `{Engine}.

(** [get(path)]. *)
Definition get (path : string) (s : session) : outcome (member jsval) :=
  if negb (isValidPath path) then Thrown ("Invalid path: " +++ path)
  else if no_object s then Thrown not_loaded
  else Returned (js_index (flatData s) path).

(** [set(path, value)]. *)
Definition set (path : string) (value : jsval) (s : session)
  : outcome unit * session :=
  if negb (isValidPath path) then (Thrown ("Invalid path: " +++ path), s)
  else if no_object s then (Thrown not_loaded, s)
  else
    let oldValue := js_index (flatData s) path in
    let deleted :=
      if set_has path (deletedPaths s) then set_delete path (deletedPaths s)
      else deletedPaths s in
    let dirty :=
      if negb (member_eq oldValue value) then set_add path (dirtyPaths s)
      else dirtyPaths s in
    (Returned tt,
     Session (currentObjId s) (js_set path value (flatData s))
             (originalFlatData s) dirty deleted).

(** [delete(path)]. *)
Definition delete (path : string) (s : session) : outcome unit * session :=
  if negb (isValidPath path) then (Thrown ("Invalid path: " +++ path), s)
  else if no_object s then (Thrown not_loaded, s)
  else if js_in path (flatData s) then
    (Returned tt,
     Session (currentObjId s) (js_delete path (flatData s))
             (originalFlatData s)
             (set_delete path (dirtyPaths s))
             (set_add path (deletedPaths s)))
  else (Returned tt, s).

(** The loop of [use] over the rows read: each decoded value is a new
    object, stored in both mappings. *)
Fixpoint load_rows (rows : list row) (next : nat) (s : session) : session :=
  match rows with
  | [] => s
  | r :: rows' =>
      let deserializedValue :=
        JsVal next (fromStorageFormat (value_text r) (value_type r)) in
      load_rows rows' (S next)
        (Session (currentObjId s)
                 (js_set (key_path r) deserializedValue (flatData s))
                 (js_set (key_path r) deserializedValue (originalFlatData s))
                 (dirtyPaths s) (deletedPaths s))
  end.

(** [use(objId)]; [rejected] is the error D1 answers the query with, if it
    does. *)
Definition use (objId : string) (rejected : option js_error)
    (s : session) (w : world) : outcome unit * session * world :=
  if negb (isValidObjId objId) then
    (Thrown ("Invalid object ID: " +++ objId), s, w)
  else
    let w1 :=
      if nonempty (dirtyPaths s) || nonempty (deletedPaths s) then
        warned ("MaskQL: Switching to new object " +++ in_quotes objId +++
                " with unsaved changes. Previous changes will be lost.") w
      else w in
    let s1 := Session (Some objId) empty_object empty_object [] [] in
    let w2 := called (D1_all objId) w1 in
    match rejected with
    | Some error =>
        (Thrown ("Failed to load object " +++ in_quotes objId +++
                 " from D1: " +++ message error), s1, w2)
    | None =>
        let results := select objId (table w2) in
        (Returned tt, load_rows results (heap_next w2) s1,
         allocated (List.length results) w2)
    end.

(** The statements [save] prepares: the deletes, then the upserts. *)
Definition statements_of (objId : string) (s : session) : list statement :=
  flat_map
    (fun path =>
       if js_in path (originalFlatData s) then [DELETE objId path] else [])
    (deletedPaths s)
  ++ map
    (fun path =>
       let value := js_index (flatData s) path in
       let '(serializedValue, valueType) := toStorageFormat_member value in
       UPSERT objId path serializedValue valueType)
    (dirtyPaths s).

(** [save()]; [rejected] is the error D1 answers the batch with, if it
    does. *)
Definition save (rejected : option js_error) (s : session) (w : world)
  : outcome unit * session * world :=
  match currentObjId s with
  | None => (Thrown not_loaded, s, w)
  | Some objId =>
      if negb (truthy objId) then (Thrown not_loaded, s, w)
      else
        let statements := statements_of objId s in
        let saved :=
          Session (Some objId) (flatData s) (spread (flatData s)) [] [] in
        if nonempty statements then
          let w1 := called (D1_batch statements) w in
          match rejected with
          | Some error =>
              (Thrown ("Failed to save object " +++ in_quotes objId +++
                       " to D1: " +++ message error), s, w1)
          | None =>
              (Returned tt, saved, with_table (batch statements (table w1)) w1)
          end
        else (Returned tt, saved, w)
  end.

(** [getAll()]; the result is [None] where [unflatten] leaves the values of
    the model (see [descend] and [js_write]). *)
Definition getAll (s : session) : outcome (option value) :=
  if no_object s then Thrown not_loaded
  else Returned (unflatten (map (fun kv => (fst kv, val (snd kv)))
                                (own (flatData s)))).

(** The second loop of [setAll], over the entries of the flattened object. *)
Fixpoint install (entries : list (string * value)) (s : session) : session :=
  match entries with
  | [] => s
  | (path, value) :: rest =>
      install rest
        (Session (currentObjId s)
                 (js_set path (JsVal 0 value) (flatData s))
                 (originalFlatData s)
                 (set_add path (dirtyPaths s))
                 (set_delete path (deletedPaths s)))
  end.

(** [setAll(obj)]. *)
Definition setAll (obj : value) (s : session) : outcome unit * session :=
  if no_object s then (Thrown not_loaded, s)
  else
    let deleted :=
      fold_left (fun d path => set_add path d) (keys (flatData s))
                (deletedPaths s) in
    let newFlatData := flatten obj "" [] in
    (Returned tt,
     install newFlatData
       (Session (currentObjId s) empty_object (originalFlatData s)
                (dirtyPaths s) deleted)).

(** [deleteObject(objId)]: [None] for an omitted or [null] argument. *)
Definition deleteObject (objId : option string) (rejected : option js_error)
    (s : session) (w : world) : outcome unit * session * world :=
  let targetObjId :=
    match objId with
    | Some given => if truthy given then Some given else currentObjId s
    | None => currentObjId s
    end in
  match targetObjId with
  | None => (Thrown "No object ID specified for deletion", s, w)
  | Some target =>
      if negb (truthy target) then
        (Thrown "No object ID specified for deletion", s, w)
      else if negb (isValidObjId target) then
        (Thrown ("Invalid object ID: " +++ target), s, w)
      else
        let w1 := called (D1_run target) w in
        match rejected with
        | Some error =>
            (Thrown ("Failed to delete object " +++ in_quotes target +++
                     " from D1: " +++ message error), s, w1)
        | None =>
            let w2 := with_table (delete_rows target (table w1)) w1 in
            match currentObjId s with
            | Some current =>
                if String.eqb target current then (Returned tt, constructor, w2)
                else (Returned tt, s, w2)
            | None => (Returned tt, s, w2)
            end
        end
  end.

(** [exists(objId)]. *)
Definition exists_ (objId : string) (rejected : option js_error)
    (s : session) (w : world) : outcome bool * session * world :=
  if negb (isValidObjId objId) then
    (Thrown ("Invalid object ID: " +++ objId), s, w)
  else
    let w1 := called (D1_first objId) w in
    match rejected with
    | Some error =>
        (Thrown ("Failed to check existence of object " +++ in_quotes objId +++
                 ": " +++ message error), s, w1)
    | None => (Returned (nonempty (select objId (table w1))), s, w1)
    end.

End Methods.

End MaskQL.

(* ------------------------------------------------------------------ *)
(** ** An executable [Engine]

    The text [JSON.stringify] writes for the values of the model, a reader
    of JSON text whose numbers are the integers (a fraction or an exponent
    makes it fail) and whose [\u] escapes stay below 256, a [Number] that
    reads the integers written with all their digits, and given prototypes
    that offer their own properties and the members of [Object.prototype].
    It serves to evaluate the examples. *)

Module Model.

Definition backslash : string := String (ascii_of_nat 92) EmptyString.

Definition hex_digit (n : nat) : ascii :=
  ascii_of_nat (if Nat.ltb n 10 then 48 + n else 87 + n).

(** One character inside a JSON string. *)
Definition escape (c : ascii) : string :=
  let n := nat_of_ascii c in
  if Nat.eqb n 34 then backslash +++ dquote
  else if Nat.eqb n 92 then backslash +++ backslash
  else if Nat.eqb n 8 then backslash +++ "b"
  else if Nat.eqb n 12 then backslash +++ "f"
  else if Nat.eqb n 10 then backslash +++ "n"
  else if Nat.eqb n 13 then backslash +++ "r"
  else if Nat.eqb n 9 then backslash +++ "t"
  else if Nat.ltb n 32 then
    backslash +++ "u00" +++
    String (hex_digit (n / 16)) (String (hex_digit (n mod 16)) EmptyString)
  else String c EmptyString.

Fixpoint escaped (s : string) : string :=
  match s with
  | EmptyString => EmptyString
  | String c s' => escape c +++ escaped s'
  end.

Definition text (s : string) : string := dquote +++ escaped s +++ dquote.

Definition comma (first : bool) : string := if first then "" else ",".

(** [JSON.stringify(v)]: inside an array [undefined] is written [null],
    inside an object a property that is [undefined] is left out, and a date
    is written as the text of its ISO form. *)
Fixpoint stringify (v : value) : string :=
  match v with
  | VNull | VUndef => "null"
  | VBool b => String_of_bool b
  | VNum n => if isNaN n then "null" else String_of_number n
  | VStr s => text s
  | VDate iso => text iso
  | VArr elems =>
      "[" +++
      (fix each (l : list value) (first : bool) : string :=
         match l with
         | [] => ""
         | e :: l' => comma first +++ stringify e +++ each l' false
         end) elems true +++ "]"
  | VObj props =>
      "{" +++
      (fix each (l : list (string * value)) (first : bool) : string :=
         match l with
         | [] => ""
         | (_, VUndef) :: l' => each l' first
         | (k, e) :: l' =>
             comma first +++ text k +++ ":" +++ stringify e +++ each l' false
         end) props true +++ "}"
  end.

Definition is_ws (c : ascii) : bool :=
  let n := nat_of_ascii c in
  Nat.eqb n 32 || Nat.eqb n 9 || Nat.eqb n 10 || Nat.eqb n 13.

Fixpoint skip_ws (s : string) : string :=
  match s with
  | EmptyString => EmptyString
  | String c s' => if is_ws c then skip_ws s' else s
  end.

(** [s] without the prefix [p], when it has it. *)
Fixpoint strip (p s : string) : option string :=
  match p, s with
  | EmptyString, _ => Some s
  | String a p', String b s' => if Ascii.eqb a b then strip p' s' else None
  | String _ _, EmptyString => None
  end.

Definition is_digit (c : ascii) : bool :=
  let n := nat_of_ascii c in Nat.leb 48 n && Nat.leb n 57.

Fixpoint digits (s : string) : string * string :=
  match s with
  | EmptyString => (EmptyString, EmptyString)
  | String c s' =>
      if is_digit c then let '(d, r) := digits s' in (String c d, r)
      else (EmptyString, s)
  end.

Definition hex_value (c : ascii) : option nat :=
  let n := nat_of_ascii c in
  if Nat.leb 48 n && Nat.leb n 57 then Some (n - 48)
  else if Nat.leb 97 n && Nat.leb n 102 then Some (n - 87)
  else if Nat.leb 65 n && Nat.leb n 70 then Some (n - 55)
  else None.

Definition unescape (c : ascii) : option ascii :=
  let n := nat_of_ascii c in
  if Nat.eqb n 34 || Nat.eqb n 92 || Nat.eqb n 47 then Some c
  else if Nat.eqb n 98 then Some (ascii_of_nat 8)
  else if Nat.eqb n 102 then Some (ascii_of_nat 12)
  else if Nat.eqb n 110 then Some (ascii_of_nat 10)
  else if Nat.eqb n 114 then Some (ascii_of_nat 13)
  else if Nat.eqb n 116 then Some (ascii_of_nat 9)
  else None.

Definition push (c : ascii) (r : option (string * string))
  : option (string * string) :=
  match r with
  | Some (str, rest) => Some (String c str, rest)
  | None => None
  end.

(** The characters of a string after its opening quote, and what follows
    the closing one. *)
Fixpoint chars (s : string) : option (string * string) :=
  match s with
  | EmptyString => None
  | String c r =>
      if Nat.eqb (nat_of_ascii c) 34 then Some (EmptyString, r)
      else if Nat.eqb (nat_of_ascii c) 92 then
        match r with
        | EmptyString => None
        | String e r1 =>
            if Nat.eqb (nat_of_ascii e) 117 then
              match r1 with
              | String h1 (String h2 (String h3 (String h4 r2))) =>
                  match hex_value h1, hex_value h2, hex_value h3, hex_value h4 with
                  | Some 0, Some 0, Some a, Some b =>
                      push (ascii_of_nat (16 * a + b)) (chars r2)
                  | _, _, _, _ => None
                  end
              | _ => None
              end
            else
              match unescape e with
              | Some c' => push c' (chars r1)
              | None => None
              end
        end
      else if Nat.ltb (nat_of_ascii c) 32 then None
      else push c (chars r)
  end.

(** A number: an optional sign and digits with no superfluous zero. *)
Definition integer (s : string) : option (value * string) :=
  let '(sign, body) :=
    match strip "-" s with
    | Some r => ("-", r)
    | None => ("", s)
    end in
  let '(d, rest) := digits body in
  let ok_digits :=
    match d with
    | EmptyString => false
    | String z (String _ _) => negb (Ascii.eqb z "0")
    | String _ EmptyString => true
    end in
  let ok_rest :=
    match rest with
    | String c _ =>
        negb (Ascii.eqb c "." || Ascii.eqb c "e" || Ascii.eqb c "E")
    | EmptyString => true
    end in
  if ok_digits && ok_rest then
    Some (VNum (if String.eqb d "0" then Num "0" else Num (sign +++ d)), rest)
  else None.

Fixpoint parse_value (fuel : nat) (s : string) : option (value * string) :=
  match fuel with
  | O => None
  | S fuel' =>
      match skip_ws s with
      | EmptyString => None
      | String c r as s1 =>
          let n := nat_of_ascii c in
          if Nat.eqb n 91 then
            match skip_ws r with
            | String c' r' as r1 =>
                if Nat.eqb (nat_of_ascii c') 93 then Some (VArr [], r')
                else
                  match parse_elements fuel' r1 with
                  | Some (elems, rest) => Some (VArr elems, rest)
                  | None => None
                  end
            | EmptyString => None
            end
          else if Nat.eqb n 123 then
            match skip_ws r with
            | String c' r' as r1 =>
                if Nat.eqb (nat_of_ascii c') 125 then Some (VObj [], r')
                else
                  match parse_members fuel' r1 [] with
                  | Some (props, rest) => Some (VObj props, rest)
                  | None => None
                  end
            | EmptyString => None
            end
          else if Nat.eqb n 34 then
            match chars r with
            | Some (str, rest) => Some (VStr str, rest)
            | None => None
            end
          else
            match strip "null" s1, strip "true" s1, strip "false" s1 with
            | Some rest, _, _ => Some (VNull, rest)
            | _, Some rest, _ => Some (VBool true, rest)
            | _, _, Some rest => Some (VBool false, rest)
            | None, None, None => integer s1
            end
      end
  end

with parse_elements (fuel : nat) (s : string) : option (list value * string) :=
  match fuel with
  | O => None
  | S fuel' =>
      match parse_value fuel' s with
      | None => None
      | Some (v, r) =>
          match skip_ws r with
          | String c r' =>
              if Nat.eqb (nat_of_ascii c) 44 then
                match parse_elements fuel' r' with
                | Some (vs, rest) => Some (v :: vs, rest)
                | None => None
                end
              else if Nat.eqb (nat_of_ascii c) 93 then Some ([v], r')
              else None
          | EmptyString => None
          end
      end
  end

with parse_members (fuel : nat) (s : string) (props : list (string * value))
  : option (list (string * value) * string) :=
  match fuel with
  | O => None
  | S fuel' =>
      match skip_ws s with
      | String q r =>
          if Nat.eqb (nat_of_ascii q) 34 then
            match chars r with
            | None => None
            | Some (k, r1) =>
                match skip_ws r1 with
                | String colon r2 =>
                    if Nat.eqb (nat_of_ascii colon) 58 then
                      match parse_value fuel' r2 with
                      | None => None
                      | Some (v, r3) =>
                          let props' := setOwn k v props in
                          match skip_ws r3 with
                          | String c r4 =>
                              if Nat.eqb (nat_of_ascii c) 44 then
                                parse_members fuel' r4 props'
                              else if Nat.eqb (nat_of_ascii c) 125 then
                                Some (props', r4)
                              else None
                          | EmptyString => None
                          end
                      end
                    else None
                | EmptyString => None
                end
            end
          else None
      | EmptyString => None
      end
  end.

(** [JSON.parse(s)], [None] for a [SyntaxError]. *)
Definition parse (s : string) : option value :=
  match parse_value (2 * String.length s + 2) s with
  | Some (v, rest) =>
      match skip_ws rest with
      | EmptyString => Some v
      | String _ _ => None
      end
  | None => None
  end.

(** [Number(s)] on the empty string and on the integers up to 2^53 in
    absolute value written in decimal; this instance answers [NaN] for any
    other text, as [Number] does for a text that is no numeric literal, and
    so does not read the literals that have a fraction, an exponent, a
    radix prefix, a plus sign or white space around them. *)
Definition number_of_text (s : string) : number :=
  match s with
  | EmptyString => int 0
  | _ =>
      match NilZero.int_of_string s with
      | Some i => int (Z.of_int i)
      | None => Num "NaN"
      end
  end.

(** What a given prototype offers: its own properties when it is a plain
    object, then the members of [Object.prototype]; the accessor
    [__proto__] answers the prototype itself.  The indices, the length and
    the methods that an array or a date offers are left out of this
    instance. *)
Definition offered (v : jsval) (k : string) : option (member jsval) :=
  match
    match val v with
    | VObj props => getOwn k props
    | _ => None
    end
  with
  | Some x => Some (Held (JsVal 0 x))
  | None =>
      if String.eqb k "__proto__" then Some (Held v)
      else if String.eqb k "constructor" then Some (Native_function "Object")
      else if inherited k then Some (Native_function k)
      else None
  end.

End Model.

Definition engine_model : Engine :=
  {| JSON_stringify := Model.stringify;
     JSON_parse := Model.parse;
     Number := Model.number_of_text;
     lookup := Model.offered |}.

(* ------------------------------------------------------------------ *)
(** ** Programs of a caller *)

(** One call on an instance, with its arguments and, where the call awaits
    D1, whether D1 rejects it. *)
Inductive call : Type :=
| CallUse (objId : string) (rejected : option js_error)
| CallGet (path : string)
| CallSet (path : string) (value : jsval)
| CallDelete (path : string)
| CallSetAll (obj : value)
| CallSave (rejected : option js_error)
| CallGetAll
| CallDeleteObject (objId : option string) (rejected : option js_error)
| CallExists (objId : string) (rejected : option js_error).

(** The calls that neither read nor write D1, keep the loaded object, and
    write to nothing but the cache and the two trackers. *)
Definition in_memory (c : call) : bool :=
  match c with
  | CallGet _ | CallSet _ _ | CallDelete _ | CallSetAll _ => true
  | _ => false
  end.

Definition is_setAll (c : call) : bool :=
  match c with
  | CallSetAll _ => true
  | _ => false
  end.

Section Programs.
Context `{Engine}.

(** The instance and the environment after one call, whether it returns or
    throws.  [getAll] leaves the fields of the instance as they are; what
    [unflatten] writes into an object that the cache holds as a value, or
    into [Object.prototype], is not followed. *)
Definition step (c : call) (st : MaskQL.session * world)
  : MaskQL.session * world :=
  let '(s, w) := st in
  match c with
  | CallUse objId rejected =>
      let '(_, s', w') := MaskQL.use objId rejected s w in (s', w')
  | CallGet _ => (s, w)
  | CallSet path value => (snd (MaskQL.set path value s), w)
  | CallDelete path => (snd (MaskQL.delete path s), w)
  | CallSetAll obj => (snd (MaskQL.setAll obj s), w)
  | CallSave rejected =>
      let '(_, s', w') := MaskQL.save rejected s w in (s', w')
  | CallGetAll => (s, w)
  | CallDeleteObject objId rejected =>
      let '(_, s', w') := MaskQL.deleteObject objId rejected s w in (s', w')
  | CallExists objId rejected =>
      let '(_, s', w') := MaskQL.exists_ objId rejected s w in (s', w')
  end.

Definition run (program : list call) (st : MaskQL.session * world)
  : MaskQL.session * world :=
  fold_left (fun st c => step c st) program st.

End Programs.

(** A database with no row that has received no call. *)
Definition empty_world : world := World [] [] [] 0.

(** The statements of the batches among the calls [cs]. *)
Definition batched (cs : list d1_call) : list statement :=
  flat_map (fun c => match c with D1_batch sts => sts | _ => [] end) cs.

(** The paths of the rows stored for [objId]. *)
Definition persisted_paths (objId : string) (w : world) : list string :=
  map key_path (select objId (table w)).

(** The invariant of the specification: no path is both dirty and deleted. *)
Definition disjoint_trackers (s : MaskQL.session) : Prop :=
  forall path,
    In path (MaskQL.dirtyPaths s) -> In path (MaskQL.deletedPaths s) -> False.

(* ------------------------------------------------------------------ *)
(** ** Vocabulary of the statements about [flatten] and [unflatten] *)

Definition is_plain_object (v : value) : bool :=
  match v with
  | VObj _ => true
  | _ => false
  end.

(** A plain object with at least one key: what [flatten] recurses into. *)
Definition nests (v : value) : bool :=
  match v with
  | VObj (_ :: _) => true
  | _ => false
  end.

Definition dot_free (k : string) : bool := negb (includes "." k).

Fixpoint distinct (l : list string) : bool :=
  match l with
  | [] => true
  | x :: l' => negb (set_has x l') && distinct l'
  end.

Section ValueInduction.
Variable P : value -> Prop.
Hypothesis HNull : P VNull.
Hypothesis HUndef : P VUndef.
Hypothesis HBool : forall b, P (VBool b).
Hypothesis HNum : forall n, P (VNum n).
Hypothesis HStr : forall s, P (VStr s).
Hypothesis HArr : forall elems, Forall P elems -> P (VArr elems).
Hypothesis HObj :
  forall props, Forall (fun kv => P (snd kv)) props -> P (VObj props).
Hypothesis HDate : forall iso, P (VDate iso).

(** Induction on a value with the hypothesis for every element and every
    property value. *)
Fixpoint value_induction (v : value) : P v :=
  match v with
  | VNull => HNull
  | VUndef => HUndef
  | VBool b => HBool b
  | VNum n => HNum n
  | VStr s => HStr s
  | VArr elems =>
      HArr elems
        ((fix all (l : list value) : Forall P l :=
            match l with
            | [] => Forall_nil P
            | x :: l' => Forall_cons x (value_induction x) (all l')
            end) elems)
  | VObj props =>
      HObj props
        ((fix all (l : list (string * value))
            : Forall (fun kv => P (snd kv)) l :=
            match l with
            | [] => Forall_nil _
            | kv :: l' =>
                Forall_cons kv (value_induction (snd kv)) (all l')
            end) props)
  | VDate iso => HDate iso
  end.

End ValueInduction.

Section RoundTripVocabulary.
Context `{Engine}.

(** The leaf the loop of [flatten] writes for a property value it does not
    recurse into. *)
Definition encode (val : value) : value :=
  match val with
  | VNull | VUndef => VStr ""
  | VArr _ => VStr (JSON_stringify val)
  | VDate iso => VStr iso
  | VObj _ => VStr "{}"
  | VBool _ | VNum _ | VStr _ => val
  end.

(** A key that has no dot and is not [__proto__]. *)
Definition plain_key (k : string) : bool :=
  dot_free k && negb (String.eqb k "__proto__").

(** The values [unflatten] gives back as they were: [null], booleans,
    numbers, strings and arrays that [parseValue] decodes to themselves, and
    objects with distinct keys, none with a dot and none [__proto__], whose
    property values are such values. *)
Fixpoint stable (v : value) : Prop :=
  match v with
  | VNull | VBool _ | VNum _ => True
  | VUndef | VDate _ => False
  | VStr _ => parseValue v = v
  | VArr _ => parseValue (VStr (JSON_stringify v)) = v
  | VObj props =>
      distinct (keys props) = true /\
      (fix all (l : list (string * value)) : Prop :=
         match l with
         | [] => True
         | (k, x) :: l' => plain_key k = true /\ stable x /\ all l'
         end) props
  end.

(** The domain of the round trip: a plain object that is [stable] and whose
    top-level keys that hold an object with keys are not empty. *)
Definition round_trips (v : value) : Prop :=
  match v with
  | VObj props =>
      stable v /\
      Forall (fun kv => nests (snd kv) = true -> truthy (fst kv) = true) props
  | _ => False
  end.


(** The path [flatten] reaches from [prefix] down the keys [segs]. *)
Definition mkpath (prefix : string) (segs : list string) : string :=
  fold_left (fun p k => if truthy p then p +++ "." +++ k else k) segs prefix.

Definition under (k : string) (e : list string * value) : list string * value :=
  (k :: fst e, snd e).

(** The leaves below a property value, in the order [flatten] writes them:
    the keys that lead to each, and the leaf written. *)
Fixpoint leaves (val : value) : list (list string * value) :=
  match val with
  | VObj ((_ :: _) as props) =>
      (fix each (l : list (string * value)) : list (list string * value) :=
         match l with
         | [] => []
         | (k, x) :: l' => map (under k) (leaves x) ++ each l'
         end) props
  | _ => [([], encode val)]
  end.

Definition leaves_of_props (props : list (string * value))
  : list (list string * value) :=
  flat_map (fun kv => map (under (fst kv)) (leaves (snd kv))) props.

(** [flatten] writing one leaf at the path below [prefix]. *)
Definition write (prefix : string) (result : list (string * value))
    (e : list string * value) : list (string * value) :=
  js_put (mkpath prefix (fst e)) (snd e) result.


End RoundTripVocabulary.

(* ------------------------------------------------------------------ *)
(** ** flatten.js and types.js: the comparison helpers *)

Section Diff.
Context `{Engine}.

(** The loop of [getDiff] over [Object.entries(newFlat)]. *)
Fixpoint getDiff_entries (oldFlat : object) (entries : list (string * jsval))
    (diff : object) : object :=
  match entries with
  | [] => diff
  | (key, value) :: rest =>
      getDiff_entries oldFlat rest
        (if negb (js_in key oldFlat)
            || negb (member_eq (js_index oldFlat key) value)
         then js_set key value diff
         else diff)
  end.

(** [getDiff(oldFlat, newFlat)]. *)
Definition getDiff (oldFlat newFlat : object) : object :=
  getDiff_entries oldFlat (own newFlat) empty_object.

(** [getDeletedKeys(oldFlat, newFlat)]. *)
Definition getDeletedKeys (oldFlat newFlat : object) : list string :=
  filter (fun key => negb (js_in key newFlat)) (keys oldFlat).

End Diff.

(** [v === null || v === undefined]. *)
Definition nullish (v : jsval) : bool :=
  match val v with
  | VNull | VUndef => true
  | _ => false
  end.

Section Comparison.
Context `{Engine}.

(** [hasValueChanged(oldValue, newValue)]. *)
Definition hasValueChanged (oldValue newValue : jsval) : bool :=
  if strict_eq oldValue newValue then false
  else if nullish oldValue then negb (nullish newValue)
  else if nullish newValue then negb (nullish oldValue)
  else
    let oldType := getValueType (val oldValue) in
    let newType := getValueType (val newValue) in
    if negb (String.eqb oldType newType) then true
    else if String.eqb oldType "string" || String.eqb oldType "number"
            || String.eqb oldType "boolean"
    then negb (strict_eq oldValue newValue)
    else negb (String.eqb (JSON_stringify (val oldValue))
                          (JSON_stringify (val newValue))).

End Comparison.

(* ------------------------------------------------------------------ *)
(** ** Vocabulary of the further statements *)

(** A string, a number or a boolean. *)
Definition is_primitive (v : value) : bool :=
  match v with
  | VStr _ | VNum _ | VBool _ => true
  | _ => false
  end.

(** The primary key of the table: no two rows with the same object id and
    path. *)
Definition primary_key (t : list row) : Prop :=
  NoDup (map (fun r => (obj_id r, key_path r)) t).

(** The row stored for an object at a path. *)
Definition stored_row (objId path : string) (t : list row) : option row :=
  find (row_is objId path) t.

(** An array, an object or a date: what [===] compares by identity. *)
Definition by_identity (v : value) : bool :=
  match v with
  | VArr _ | VObj _ | VDate _ => true
  | _ => false
  end.

(** A thrown error preserves the error it wraps when it is that error or
    holds it as its cause. *)
Definition preserves_cause (thrown original : js_error) : Prop :=
  thrown = original \/ cause thrown = Some original.

(** The own property [k] of [o], or [undefined]. *)
Definition indexOwn (o : list (string * jsval)) (k : string) : jsval :=
  match getOwn k o with
  | Some v => v
  | None => undefined
  end.

(** Whether [o] finds [k] above its own properties. *)
Definition inherits `{Engine} (o : object) (k : string) : bool :=
  js_in k (Object (proto o) []).

(** A name that is no member of [Object.prototype]. *)
Definition ordinary (k : string) : bool := negb (inherited k).

(** [old] after the keys [deleted] are removed and the entries of [diff]
    written. *)
Definition patched (old diff : object) (deleted : list string) : object :=
  fold_left (fun o kv => js_set (fst kv) (snd kv) o) (own diff)
    (fold_left (fun o k => js_delete k o) deleted old).

(** The invariant the calls other than [setAll] keep: a dirty path other
    than [__proto__] is an own property of [flatData], a deleted path is
    not. *)
Definition tracked (s : MaskQL.session) : Prop :=
  (forall path, In path (MaskQL.dirtyPaths s) -> path <> "__proto__" ->
                hasOwn path (MaskQL.flatData s) = true) /\
  (forall path, In path (MaskQL.deletedPaths s) ->
                hasOwn path (MaskQL.flatData s) = false).

(** The loaded object id, when there is one, passed [isValidObjId]. *)
Definition current_valid (s : MaskQL.session) : Prop :=
  match MaskQL.currentObjId s with
  | Some objId => isValidObjId objId = true
  | None => True
  end.

Section StorageVocabulary.
Context `{Engine}.

(** The values [fromStorageFormat] gives back from what [toStorageFormat]
    wrote: [null], booleans, the numbers other than [NaN] (which [Number]
    reads back from the text [String] writes for them), strings that are not
    empty, and arrays and plain objects whose JSON text is not empty and is
    read back by [JSON.parse]. *)
Definition storable (v : value) : Prop :=
  match v with
  | VNull | VBool _ => True
  | VNum n =>
      isNaN n = false /\ String_of_number n <> "" /\
      Number (String_of_number n) = n
  | VStr s => s <> ""
  | VArr _ | VObj _ =>
      JSON_stringify v <> "" /\ JSON_parse (JSON_stringify v) = Some v
  | VUndef | VDate _ => False
  end.

(** The upsert [save] prepares for a path. *)
Definition upsert_of (objId : string) (flat : object) (path : string)
  : statement :=
  let value := js_index flat path in
  let '(serializedValue, valueType) := toStorageFormat_member value in
  UPSERT objId path serializedValue valueType.

End StorageVocabulary.

(** What the result of [flatten] is at every step: distinct keys, strings,
    numbers and booleans for values, and no own property [__proto__]. *)
Definition flat_result (o : list (string * value)) : Prop :=
  NoDup (keys o) /\
  Forall (fun kv => is_primitive (snd kv) = true) o /\
  hasOwn "__proto__" o = false.

(* ------------------------------------------------------------------ *)
(** ** Inputs of the examples *)

(** Two objects already stored. *)
Definition sample_world : world :=
  World [Row "user:1" "profile.age" "30" "number";
         Row "user:2" "name" "Bob" "string"] [] [] 0.

(** A pending write to [draft], then a whole-object replacement that has no
    [draft]. *)
Definition replace_after_write : list call :=
  [CallUse "user:1" None;
   CallSet "draft" (JsVal 0 (VNum 1));
   CallSetAll (VObj [("name", VStr "Ann")])].

(** [user:1] loaded from [sample_world] by a new instance. *)
Definition loaded_user1 : MaskQL.session * world :=
  run (H := engine_model) [CallUse "user:1" None]
      (MaskQL.constructor, sample_world).

(** The same instance after a write to the stored path. *)
Definition edited_user1 : MaskQL.session * world :=
  run (H := engine_model) [CallSet "profile.age" (JsVal 0 (VNum 31))] loaded_user1.

(** The same instance after a write to a path that is not stored. *)
Definition drafted_user1 : MaskQL.session * world :=
  run (H := engine_model) [CallSet "draft" (JsVal 0 (VNum 1))] loaded_user1.

(** A document with nested objects, an array, an empty object and [null]. *)
Definition sample_document : value :=
  VObj [("profile",
         VObj [("name", VStr "Alice");
               ("age", VNum 30);
               ("tags", VArr [VStr "a"; VNum 1; VObj [("k", VNull)]])]);
        ("settings",
         VObj [("theme", VStr "dark");
               ("extra", VObj []);
               ("last", VNull);
               ("on", VBool true)])].

(** Two versions of a flat mapping: [b] changes, [c] goes, [d] comes. *)
Definition old_flat : object :=
  Object Object_prototype
    [("a", JsVal 0 (VNum 1)); ("b", JsVal 0 (VStr "x")); ("c", JsVal 0 VNull)].

Definition new_flat : object :=
  Object Object_prototype
    [("a", JsVal 0 (VNum 1)); ("b", JsVal 0 (VStr "y"));
     ("d", JsVal 0 (VBool true))].

(** A program without [setAll]: a load, two writes, a delete, a save that
    D1 rejects, and a load of another object. *)
Definition edit_program : list call :=
  [CallUse "user:1" None;
   CallSet "profile.name" (JsVal 0 (VStr "Alice"));
   CallSet "draft" (JsVal 0 (VNum 1));
   CallDelete "profile.age";
   CallSave (Some (new_Error "D1_ERROR"));
   CallUse "user:2" None].

(** The error D1 rejects a batch with in the examples: an error that has a
    cause of its own. *)
Definition no_such_table : js_error :=
  JsError "D1_ERROR: no such table" (Some (new_Error "SQLITE_ERROR")).

(* ================================================================== *)
(** * Properties *)

(* ------------------------------------------------------------------ *)
(** ** Sets and dictionaries *)

Lemma append_assoc (a b c : string) : (a +++ b) +++ c = a +++ b +++ c.
Proof.
  induction a as [|x a IH]; simpl; [reflexivity | now rewrite IH].
Qed.

(** A quoted text followed by more text. *)
Lemma in_quotes_append (s rest : string) :
  in_quotes s +++ rest = String "034" (s +++ String "034" rest).
Proof.
  unfold in_quotes. simpl. now rewrite append_assoc.
Qed.

Lemma set_has_In (x : string) (s : list string) :
  set_has x s = true <-> In x s.
Proof.
  induction s as [|y s IH]; simpl.
  - split; [discriminate | tauto].
  - rewrite orb_true_iff, IH, String.eqb_eq. split; intros [E|E]; auto.
Qed.

Lemma In_set_add (x y : string) (s : list string) :
  In y (set_add x s) <-> y = x \/ In y s.
Proof.
  unfold set_add. destruct (set_has x s) eqn:E.
  - apply set_has_In in E. split; [auto | intros [->|]; auto].
  - rewrite in_app_iff. simpl. split; intros [G|G]; auto.
    + destruct G as [->|[]]; auto.
Qed.

Lemma In_set_delete (x y : string) (s : list string) :
  In y (set_delete x s) <-> y <> x /\ In y s.
Proof.
  induction s as [|z s IH]; simpl.
  - tauto.
  - destruct (String.eqb x z) eqn:E.
    + apply String.eqb_eq in E. subst z. rewrite IH.
      split; [tauto | intros [N [->|G]]; [congruence | auto]].
    + apply String.eqb_neq in E. simpl. rewrite IH.
      split; [intros [->|[N G]]; auto | intros [N [->|G]]; auto].
Qed.

Lemma hasOwn_In {A : Type} (k : string) (o : list (string * A)) :
  hasOwn k o = true <-> In k (keys o).
Proof.
  induction o as [|[k' v] o IH]; simpl.
  - split; [discriminate | tauto].
  - rewrite orb_true_iff, IH, String.eqb_eq. split; intros [E|E]; auto.
Qed.

Lemma getOwn_None {A : Type} (k : string) (o : list (string * A)) :
  hasOwn k o = false -> getOwn k o = None.
Proof.
  induction o as [|[k' v] o IH]; simpl; [reflexivity|].
  destruct (String.eqb k k'); simpl; [discriminate | exact IH].
Qed.

Lemma setOwn_fresh {A : Type} (k : string) (v : A) (o : list (string * A)) :
  hasOwn k o = false -> setOwn k v o = o ++ [(k, v)].
Proof.
  induction o as [|[k' v'] o IH]; simpl; [reflexivity|].
  destruct (String.eqb k k'); simpl; [discriminate|].
  intros E. now rewrite IH.
Qed.

Lemma getOwn_set {A : Type} (k : string) (v : A) (o : list (string * A)) :
  getOwn k (setOwn k v o) = Some v.
Proof.
  induction o as [|[k' v'] o IH]; simpl.
  - now rewrite String.eqb_refl.
  - destruct (String.eqb k k') eqn:E; simpl; rewrite E; [reflexivity | exact IH].
Qed.


Lemma hasOwn_get {A : Type} (k : string) (o : list (string * A)) :
  hasOwn k o = match getOwn k o with Some _ => true | None => false end.
Proof.
  induction o as [|[k' v'] o IH]; [reflexivity|].
  cbn [hasOwn getOwn]. destruct (String.eqb k k'); [reflexivity | exact IH].
Qed.

Lemma getOwn_set_other {A : Type} (k k' : string) (v : A)
    (o : list (string * A)) :
  k <> k' -> getOwn k (setOwn k' v o) = getOwn k o.
Proof.
  intros N. induction o as [|[k2 v2] o IH]; cbn [setOwn getOwn].
  - apply String.eqb_neq in N. now rewrite N.
  - destruct (String.eqb k' k2) eqn:E; cbn [getOwn].
    + apply String.eqb_eq in E. subst k2.
      apply String.eqb_neq in N. now rewrite N.
    + destruct (String.eqb k k2); [reflexivity | exact IH].
Qed.

Lemma getOwn_delete {A : Type} (k k' : string) (o : list (string * A)) :
  getOwn k (deleteOwn k' o) = if String.eqb k k' then None else getOwn k o.
Proof.
  induction o as [|[k2 v2] o IH]; cbn [deleteOwn getOwn].
  - now destruct (String.eqb k k').
  - destruct (String.eqb k' k2) eqn:E.
    + rewrite IH. apply String.eqb_eq in E. subst k2.
      destruct (String.eqb k k'); reflexivity.
    + cbn [getOwn]. destruct (String.eqb k k2) eqn:E2; [|exact IH].
      apply String.eqb_eq in E2. subst k2.
      rewrite String.eqb_sym in E. now rewrite E.
Qed.

Lemma getOwn_fresh {A : Type} (k : string) (o : list (string * A)) :
  ~ In k (keys o) -> getOwn k o = None.
Proof.
  intros N. apply getOwn_None. destruct (hasOwn k o) eqn:E; [|reflexivity].
  apply hasOwn_In in E. contradiction.
Qed.

Lemma keys_setOwn {A : Type} (k : string) (v : A) (o : list (string * A)) :
  keys (setOwn k v o) = if hasOwn k o then keys o else keys o ++ [k].
Proof.
  induction o as [|[k' v'] o IH]; [reflexivity|].
  cbn [setOwn hasOwn]. destruct (String.eqb k k'); cbn [orb].
  - reflexivity.
  - unfold keys in *. cbn [map fst]. rewrite IH.
    destruct (hasOwn k o); reflexivity.
Qed.

Lemma hasOwn_set {A : Type} (k k' : string) (v : A) (o : list (string * A)) :
  hasOwn k (setOwn k' v o) = String.eqb k k' || hasOwn k o.
Proof.
  rewrite !hasOwn_get. destruct (String.eqb_spec k k') as [->|N].
  - now rewrite getOwn_set.
  - now rewrite getOwn_set_other.
Qed.

Lemma hasOwn_delete {A : Type} (k k' : string) (o : list (string * A)) :
  hasOwn k (deleteOwn k' o) = negb (String.eqb k k') && hasOwn k o.
Proof.
  rewrite !hasOwn_get, getOwn_delete. now destruct (String.eqb k k').
Qed.

Lemma In_keys_setOwn {A : Type} (k k' : string) (v : A)
    (o : list (string * A)) :
  In k (keys (setOwn k' v o)) <-> k = k' \/ In k (keys o).
Proof.
  rewrite keys_setOwn. destruct (hasOwn k' o) eqn:E.
  - apply hasOwn_In in E. split; [auto | intros [->|G]; auto].
  - rewrite in_app_iff. simpl. intuition.
Qed.

(* ------------------------------------------------------------------ *)
(** ** The session *)

Section SessionFacts.
Context `{Engine}.

Lemma install_originalFlatData entries s :
  MaskQL.originalFlatData (MaskQL.install entries s) = MaskQL.originalFlatData s.
Proof.
  revert s. induction entries as [|[path value] rest IH]; intros s; simpl.
  - reflexivity.
  - now rewrite IH.
Qed.

Lemma install_currentObjId entries s :
  MaskQL.currentObjId (MaskQL.install entries s) = MaskQL.currentObjId s.
Proof.
  revert s. induction entries as [|[path value] rest IH]; intros s; simpl.
  - reflexivity.
  - now rewrite IH.
Qed.

(** A call that stays in memory changes neither the snapshot nor the
    environment. *)
Lemma step_in_memory c s w :
  in_memory c = true ->
  MaskQL.originalFlatData (fst (step c (s, w))) = MaskQL.originalFlatData s /\
  snd (step c (s, w)) = w.
Proof.
  destruct c; simpl; try discriminate; intros _; split; try reflexivity.
  - unfold MaskQL.set.
    destruct (negb (isValidPath path)); [reflexivity|].
    destruct (MaskQL.no_object s); reflexivity.
  - unfold MaskQL.delete.
    destruct (negb (isValidPath path)); [reflexivity|].
    destruct (MaskQL.no_object s); [reflexivity|].
    destruct (js_in path (MaskQL.flatData s)); reflexivity.
  - unfold MaskQL.setAll.
    destruct (MaskQL.no_object s); [reflexivity|].
    simpl. now rewrite install_originalFlatData.
Qed.

Lemma run_in_memory program s w :
  forallb in_memory program = true ->
  MaskQL.originalFlatData (fst (run program (s, w))) = MaskQL.originalFlatData s /\
  snd (run program (s, w)) = w.
Proof.
  revert s w. induction program as [|c program IH]; intros s w.
  - auto.
  - simpl forallb. rewrite andb_true_iff. intros [Hc Hp].
    destruct (step_in_memory c s w Hc) as [E1 E2].
    change (run (c :: program) (s, w)) with (run program (step c (s, w))).
    destruct (step c (s, w)) as [s1 w1]. simpl in E1, E2. subst w1.
    destruct (IH s1 w Hp) as [E3 E4].
    rewrite E3, E4. auto.
Qed.

(** [save] prepares a delete only for a path it finds [in] the snapshot. *)
Lemma statements_of_DELETE objId s target path :
  In (DELETE target path) (MaskQL.statements_of objId s) ->
  js_in path (MaskQL.originalFlatData s) = true.
Proof.
  unfold MaskQL.statements_of. rewrite in_app_iff, in_flat_map, in_map_iff.
  intros [[p [_ Hp]]|[p [Hp _]]].
  - destruct (js_in p (MaskQL.originalFlatData s)) eqn:E.
    + destruct Hp as [Hp|[]]. now inversion Hp; subst.
    + destruct Hp.
  - destruct (toStorageFormat_member _); discriminate.
Qed.

(** What [save] adds to the calls D1 received: nothing, or one batch of
    the statements it prepared. *)
Lemma save_calls rejected s w :
  snd (MaskQL.save rejected s w) = w \/
  exists objId,
    MaskQL.currentObjId s = Some objId /\
    calls (snd (MaskQL.save rejected s w)) =
    calls w ++ [D1_batch (MaskQL.statements_of objId s)].
Proof.
  unfold MaskQL.save. destruct (MaskQL.currentObjId s) as [objId|]; [|now left].
  destruct (negb (truthy objId)); [now left|].
  destruct (nonempty (MaskQL.statements_of objId s)); [|now left].
  right. exists objId. split; [reflexivity|].
  destruct rejected; reflexivity.
Qed.

(** Every call but [setAll] keeps the dirty set and the deleted set apart. *)
Lemma step_disjoint_trackers c s w :
  is_setAll c = false ->
  disjoint_trackers s ->
  disjoint_trackers (fst (step c (s, w))).
Proof.
  intros Hc Inv. destruct c; simpl in *; try discriminate; try exact Inv.
  - unfold MaskQL.use. destruct (negb (isValidObjId objId)); [exact Inv|].
    destruct rejected; simpl.
    + intros p [].
    + set (rows := select objId _). set (next := heap_next _).
      assert (G : forall rows next s0,
                 MaskQL.dirtyPaths (MaskQL.load_rows rows next s0) =
                 MaskQL.dirtyPaths s0).
      { clear. induction rows as [|r rows IH]; intros; simpl; [reflexivity|].
        now rewrite IH. }
      intros p Hp. rewrite G in Hp. destruct Hp.
  - unfold MaskQL.set. destruct (negb (isValidPath path)); [exact Inv|].
    destruct (MaskQL.no_object s); [exact Inv|].
    intros p Hd Hx. simpl in Hd, Hx.
    assert (Hx' : p <> path /\ In p (MaskQL.deletedPaths s) \/
                  (~ In path (MaskQL.deletedPaths s) /\ In p (MaskQL.deletedPaths s))).
    { destruct (set_has path (MaskQL.deletedPaths s)) eqn:E.
      - left. now apply In_set_delete.
      - right. split; [|exact Hx]. intros G. apply set_has_In in G. congruence. }
    assert (Hd' : p = path \/ In p (MaskQL.dirtyPaths s)).
    { destruct (negb (member_eq _ _)); [now apply In_set_add | now right]. }
    destruct Hd' as [->|Hd'].
    + destruct Hx' as [[N _]|[N G]]; [now apply N | now apply N].
    + destruct Hx' as [[_ G]|[_ G]]; now apply (Inv p).
  - unfold MaskQL.delete. destruct (negb (isValidPath path)); [exact Inv|].
    destruct (MaskQL.no_object s); [exact Inv|].
    destruct (js_in path (MaskQL.flatData s)); [|exact Inv].
    intros p Hd Hx. simpl in Hd, Hx. apply In_set_delete in Hd. destruct Hd as [N Hd].
    apply In_set_add in Hx. destruct Hx as [->|Hx]; [now apply N|].
    now apply (Inv p).
  - unfold MaskQL.save. destruct (MaskQL.currentObjId s) as [objId|]; [|exact Inv].
    destruct (negb (truthy objId)); [exact Inv|].
    destruct (nonempty _); [destruct rejected|]; simpl; try exact Inv;
      intros p [].
  - unfold MaskQL.deleteObject.
    destruct (match objId with
              | Some given => if truthy given then Some given else MaskQL.currentObjId s
              | None => MaskQL.currentObjId s
              end) as [target|]; [|exact Inv].
    destruct (negb (truthy target)); [exact Inv|].
    destruct (negb (isValidObjId target)); [exact Inv|].
    destruct rejected; [exact Inv|].
    destruct (MaskQL.currentObjId s) as [current|]; [|exact Inv].
    destruct (String.eqb target current); [intros p []|exact Inv].
  - unfold MaskQL.exists_. destruct (negb (isValidObjId objId)); [exact Inv|].
    destruct rejected; exact Inv.
Qed.

End SessionFacts.

Section SessionClaims.
Context `{Engine}.

Lemma load_rows_trackers rows next s :
  MaskQL.currentObjId (MaskQL.load_rows rows next s) = MaskQL.currentObjId s /\
  MaskQL.dirtyPaths (MaskQL.load_rows rows next s) = MaskQL.dirtyPaths s /\
  MaskQL.deletedPaths (MaskQL.load_rows rows next s) = MaskQL.deletedPaths s.
Proof.
  revert next s. induction rows as [|r rows IH]; intros next s; simpl.
  - auto.
  - destruct (IH (S next)
                (MaskQL.Session (MaskQL.currentObjId s)
                   (js_set (key_path r)
                      (JsVal next (fromStorageFormat (value_text r) (value_type r)))
                      (MaskQL.flatData s))
                   (js_set (key_path r)
                      (JsVal next (fromStorageFormat (value_text r) (value_type r)))
                      (MaskQL.originalFlatData s))
                   (MaskQL.dirtyPaths s) (MaskQL.deletedPaths s)))
      as (E1 & E2 & E3).
    rewrite E1, E2, E3. auto.
Qed.

Lemma isValidObjId_truthy objId : isValidObjId objId = true -> truthy objId = true.
Proof.
  unfold isValidObjId. destruct (truthy objId); [reflexivity | discriminate].
Qed.

(** C4, as amended.  A load leaves nothing unsaved; one [set] on the loaded
    instance leaves something unsaved when the value written is not [===]
    what [flatData[path]] read before, and nothing when it is a string, a
    number, a boolean, [null] or [undefined] that is; after the [save] that
    follows nothing is unsaved. *)
Theorem hasUnsavedChanges_after_load_set_save
    (objId path : string) (value : jsval) (s : MaskQL.session) (w : world) :
  isValidObjId objId = true ->
  isValidPath path = true ->
  let loaded := MaskQL.use objId None s w in
  let held := js_index (MaskQL.flatData (snd (fst loaded))) path in
  let written := MaskQL.set path value (snd (fst loaded)) in
  let saved := MaskQL.save None (snd written) (snd loaded) in
  fst (fst loaded) = Returned tt /\
  MaskQL.hasUnsavedChanges (snd (fst loaded)) = false /\
  fst written = Returned tt /\
  (member_eq held value = false ->
   MaskQL.hasUnsavedChanges (snd written) = true) /\
  (member_eq held value = true -> by_identity (val value) = false ->
   MaskQL.hasUnsavedChanges (snd written) = false) /\
  fst (fst saved) = Returned tt /\
  MaskQL.hasUnsavedChanges (snd (fst saved)) = false.
Proof.
  intros Hid Hpath. pose proof (isValidObjId_truthy objId Hid) as Ht.
  cbv zeta. unfold MaskQL.use. rewrite Hid. cbn [negb fst snd].
  match goal with
  | |- context [MaskQL.load_rows ?rows ?next ?s0] =>
      destruct (load_rows_trackers rows next s0) as (E1 & E2 & E3);
      remember (MaskQL.load_rows rows next s0) as s1 eqn:Es1
  end.
  cbn [MaskQL.currentObjId MaskQL.dirtyPaths MaskQL.deletedPaths] in E1, E2, E3.
  clear Es1.
  assert (Hclean : MaskQL.hasUnsavedChanges s1 = false).
  { unfold MaskQL.hasUnsavedChanges. now rewrite E2, E3. }
  assert (Hloaded : MaskQL.no_object s1 = false).
  { unfold MaskQL.no_object. now rewrite E1, Ht. }
  unfold MaskQL.set. rewrite Hpath, Hloaded. cbn [negb fst snd].
  rewrite E2, E3. cbn [set_has].
  unfold MaskQL.save. cbn [MaskQL.currentObjId]. rewrite E1, Ht. cbn [negb].
  repeat split; try assumption.
  - intros E. now rewrite E.
  - intros E _. now rewrite E.
  - destruct (nonempty (MaskQL.statements_of _ _)); reflexivity.
  - destruct (nonempty (MaskQL.statements_of _ _)); reflexivity.
Qed.

(** C5, as amended.  When D1 rejects the batch of [save], the instance is
    the one before the call, the table is untouched, and the error thrown
    is a new [Error] without a cause, whose message names the loaded object
    between double quotes and ends with the message of the rejection. *)
Theorem save_rejected_keeps_session
    (objId : string) (error : js_error) (s : MaskQL.session) (w : world) :
  MaskQL.currentObjId s = Some objId ->
  truthy objId = true ->
  nonempty (MaskQL.statements_of objId s) = true ->
  MaskQL.save (Some error) s w =
    (Thrown (JsError ("Failed to save object " +++
                      String "034" (objId +++
                      String "034" (" to D1: " +++ message error)))
                     None),
     s,
     called (D1_batch (MaskQL.statements_of objId s)) w) /\
  table (snd (MaskQL.save (Some error) s w)) = table w.
Proof.
  intros Hid Ht Hst. unfold MaskQL.save. rewrite Hid, Ht, Hst. cbn [negb].
  split; [|reflexivity]. unfold new_Error. now rewrite in_quotes_append.
Qed.

(** A path that is not [in] the snapshot is deleted, calls of [get], [set],
    [delete] and [setAll] follow, and then [save] is called: whatever that
    [save] sends to D1 holds no delete for the path. *)
Theorem delete_of_path_not_in_snapshot_sends_no_DELETE
    (path : string) (program : list call) (rejected : option js_error)
    (s : MaskQL.session) (w : world) :
  js_in path (MaskQL.originalFlatData s) = false ->
  forallb in_memory program = true ->
  let st := run (CallDelete path :: program) (s, w) in
  exists sent,
    calls (snd (MaskQL.save rejected (fst st) (snd st))) = calls w ++ sent /\
    forall objId, ~ In (DELETE objId path) (batched sent).
Proof.
  intros Hp Hm st.
  destruct (run_in_memory (CallDelete path :: program) s w) as [E1 E2];
    [exact Hm|].
  fold st in E1, E2. rewrite E2.
  destruct (save_calls rejected (fst st) w) as [E|[objId [_ E]]].
  - exists []. rewrite E, app_nil_r. split; [reflexivity|]. intros objId [].
  - exists [D1_batch (MaskQL.statements_of objId (fst st))].
    split; [exact E|]. intros target Hin. simpl in Hin. rewrite app_nil_r in Hin.
    apply statements_of_DELETE in Hin. congruence.
Qed.

(** C7.  With an empty dirty set and an empty deleted set, [save] leaves the
    environment as it is: D1 receives no call. *)
Theorem save_without_changes_calls_nothing
    (rejected : option js_error) (s : MaskQL.session) (w : world) :
  MaskQL.dirtyPaths s = [] ->
  MaskQL.deletedPaths s = [] ->
  snd (MaskQL.save rejected s w) = w /\
  (MaskQL.no_object s = false ->
   fst (fst (MaskQL.save rejected s w)) = Returned tt).
Proof.
  intros Hd Hx. unfold MaskQL.save, MaskQL.no_object, MaskQL.statements_of.
  rewrite Hd, Hx. destruct (MaskQL.currentObjId s) as [objId|]; cbn.
  - destruct (truthy objId); cbn; split; auto; discriminate.
  - split; [reflexivity | discriminate].
Qed.

(** A malformed object id given to [use] or [exists], a malformed path
    given to [get], [set] or [delete], and a malformed object id that is not
    empty given to [deleteObject], make the call throw its validation error
    with the instance and the environment unchanged, so before any call to
    D1. *)
Theorem invalid_argument_throws_first
    (objId path : string) (value : jsval) (rejected : option js_error)
    (s : MaskQL.session) (w : world) :
  (isValidObjId objId = false ->
   MaskQL.use objId rejected s w =
     (Thrown ("Invalid object ID: " +++ objId), s, w) /\
   MaskQL.exists_ objId rejected s w =
     (Thrown ("Invalid object ID: " +++ objId), s, w) /\
   (truthy objId = true ->
    MaskQL.deleteObject (Some objId) rejected s w =
      (Thrown ("Invalid object ID: " +++ objId), s, w))) /\
  (isValidPath path = false ->
   MaskQL.get path s = Thrown ("Invalid path: " +++ path) /\
   MaskQL.set path value s = (Thrown ("Invalid path: " +++ path), s) /\
   MaskQL.delete path s = (Thrown ("Invalid path: " +++ path), s)).
Proof.
  split.
  - intros Hid. unfold MaskQL.use, MaskQL.exists_, MaskQL.deleteObject.
    rewrite Hid. cbn [negb]. repeat split. intros Ht.
    rewrite Ht. cbn [negb]. rewrite Ht, Hid. reflexivity.
  - intros Hp. unfold MaskQL.get, MaskQL.set, MaskQL.delete. rewrite Hp.
    cbn [negb]. repeat split.
Qed.

(** [delete] of a valid path for which [path in flatData] is false returns
    with the instance unchanged. *)
Theorem delete_of_path_not_in_flatData_is_noop
    (path : string) (s : MaskQL.session) :
  isValidPath path = true ->
  MaskQL.no_object s = false ->
  js_in path (MaskQL.flatData s) = false ->
  MaskQL.delete path s = (Returned tt, s).
Proof.
  intros Hp Hl Hin. unfold MaskQL.delete. now rewrite Hp, Hl, Hin.
Qed.

End SessionClaims.

(* ------------------------------------------------------------------ *)
(** ** The session on the examples *)

(** C2 on the code.  After a write to [draft] and a [setAll] of an object
    without [draft], the path is in the dirty set and in the deleted set:
    [setAll] adds the old paths to the deleted set and, unlike [delete],
    leaves them in the dirty set. *)
Theorem setAll_leaves_replaced_path_dirty_and_deleted :
  let s := fst (run (H := engine_model) replace_after_write
                    (MaskQL.constructor, sample_world)) in
  MaskQL.dirtyPaths s = ["draft"; "name"] /\
  MaskQL.deletedPaths s = ["profile.age"; "draft"] /\
  ~ disjoint_trackers s.
Proof.
  cbv zeta. split; [reflexivity | split; [reflexivity|]].
  intros Inv. apply (Inv "draft"); vm_compute; tauto.
Qed.

(** C3 on the code.  The same calls followed by a [save] that D1 accepts:
    the rows stored for the object are [draft] (written with the type
    [undefined]) and [name], while the flattened object has the one key
    [name]. *)
Theorem setAll_save_persists_replaced_path :
  let obj := VObj [("name", VStr "Ann")] in
  let st := run (H := engine_model) (replace_after_write ++ [CallSave None])
                (MaskQL.constructor, sample_world) in
  keys (flatten (H := engine_model) obj "" []) = ["name"] /\
  persisted_paths "user:1" (snd st) = ["draft"; "name"] /\
  select "user:1" (table (snd st)) =
    [Row "user:1" "draft" "" "undefined"; Row "user:1" "name" "Ann" "string"].
Proof.
  cbv zeta. repeat split.
Qed.

(** C4 refuted as stated: the stored age is loaded and written again
    unchanged, and nothing is unsaved after the [set]. *)
Lemma set_of_held_value_leaves_nothing_unsaved :
  let loaded :=
    MaskQL.use (H := engine_model) "user:1" None MaskQL.constructor sample_world in
  let written :=
    MaskQL.set (H := engine_model) "profile.age" (JsVal 0 (VNum 30))
               (snd (fst loaded)) in
  fst (fst loaded) = Returned tt /\
  fst written = Returned tt /\
  MaskQL.hasUnsavedChanges (snd written) = false.
Proof.
  cbv zeta. repeat split.
Qed.

Lemma hasUnsavedChanges_after_load_set_save_witness :
  isValidObjId "user:1" = true /\
  isValidPath "profile.age" = true /\
  let loaded :=
    MaskQL.use (H := engine_model) "user:1" None MaskQL.constructor sample_world in
  let held :=
    js_index (H := engine_model) (MaskQL.flatData (snd (fst loaded)))
             "profile.age" in
  let written :=
    MaskQL.set (H := engine_model) "profile.age" (JsVal 0 (VNum 31))
               (snd (fst loaded)) in
  let saved := MaskQL.save (H := engine_model) None (snd written) (snd loaded) in
  fst (fst loaded) = Returned tt /\
  MaskQL.hasUnsavedChanges (snd (fst loaded)) = false /\
  fst written = Returned tt /\
  (member_eq held (JsVal 0 (VNum 31)) = false ->
   MaskQL.hasUnsavedChanges (snd written) = true) /\
  (member_eq held (JsVal 0 (VNum 31)) = true ->
   by_identity (val (JsVal 0 (VNum 31))) = false ->
   MaskQL.hasUnsavedChanges (snd written) = false) /\
  fst (fst saved) = Returned tt /\
  MaskQL.hasUnsavedChanges (snd (fst saved)) = false.
Proof.
  split; [reflexivity | split; [reflexivity|]].
  exact (hasUnsavedChanges_after_load_set_save (H := engine_model)
           "user:1" "profile.age" (JsVal 0 (VNum 31))
           MaskQL.constructor sample_world eq_refl eq_refl).
Defined.

(** C5 refuted as stated: the error [save] throws when D1 rejects the batch
    is neither the error of D1 nor an error that holds it as its cause. *)
Lemma save_rejected_drops_cause :
  fst (fst (MaskQL.save (H := engine_model) (Some no_such_table)
                        (fst edited_user1) (snd edited_user1))) =
    Thrown (JsError ("Failed to save object " +++
                     String "034" ("user:1" +++
                     String "034" " to D1: D1_ERROR: no such table"))
                    None) /\
  ~ preserves_cause
      (JsError ("Failed to save object " +++
                String "034" ("user:1" +++
                String "034" " to D1: D1_ERROR: no such table"))
               None)
      no_such_table.
Proof.
  split; [reflexivity|]. intros [E|E]; discriminate E.
Qed.

Lemma save_rejected_keeps_session_witness :
  MaskQL.currentObjId (fst edited_user1) = Some "user:1" /\
  nonempty (MaskQL.statements_of (H := engine_model) "user:1" (fst edited_user1)) =
    true /\
  MaskQL.save (H := engine_model) (Some no_such_table)
              (fst edited_user1) (snd edited_user1) =
    (Thrown (JsError ("Failed to save object " +++
                      String "034" ("user:1" +++
                      String "034" (" to D1: " +++ message no_such_table)))
                     None),
     fst edited_user1,
     called (D1_batch (MaskQL.statements_of (H := engine_model) "user:1"
                                            (fst edited_user1)))
            (snd edited_user1)) /\
  table (snd (MaskQL.save (H := engine_model) (Some no_such_table)
                          (fst edited_user1) (snd edited_user1))) =
    table (snd edited_user1).
Proof.
  split; [reflexivity | split; [reflexivity|]].
  exact (save_rejected_keeps_session (H := engine_model)
           "user:1" no_such_table
           (fst edited_user1) (snd edited_user1)
           eq_refl eq_refl eq_refl).
Defined.

(** C6 on the code.  [toString] is no row of the object and no key of the
    snapshot; it is written, deleted, and [save] is called: the batch D1
    receives is one delete for the path, because [in] finds the name in
    [Object.prototype]. *)
Theorem delete_of_unsaved_inherited_name_sends_DELETE :
  let st := run (H := engine_model)
                [CallSet "toString" (JsVal 0 (VNum 1));
                 CallDelete "toString";
                 CallSave None]
                loaded_user1 in
  persisted_paths "user:1" (snd loaded_user1) = ["profile.age"] /\
  keys (MaskQL.originalFlatData (fst loaded_user1)) = ["profile.age"] /\
  calls (snd st) =
    [D1_all "user:1"; D1_batch [DELETE "user:1" "toString"]].
Proof.
  cbv zeta. repeat split.
Qed.

Lemma delete_of_path_not_in_snapshot_sends_no_DELETE_witness :
  js_in (H := engine_model) "draft"
        (MaskQL.originalFlatData (fst drafted_user1)) = false /\
  js_in (H := engine_model) "draft" (MaskQL.flatData (fst drafted_user1)) =
    true /\
  let st := run (H := engine_model)
                [CallDelete "draft"; CallSet "profile.age" (JsVal 0 (VNum 31))]
                drafted_user1 in
  exists sent,
    calls (snd (MaskQL.save (H := engine_model) None (fst st) (snd st))) =
      calls (snd drafted_user1) ++ sent /\
    forall objId, ~ In (DELETE objId "draft") (batched sent).
Proof.
  split; [reflexivity | split; [reflexivity|]].
  exact (delete_of_path_not_in_snapshot_sends_no_DELETE (H := engine_model)
           "draft" [CallSet "profile.age" (JsVal 0 (VNum 31))] None
           (fst drafted_user1) (snd drafted_user1) eq_refl eq_refl).
Defined.

Lemma save_without_changes_calls_nothing_witness :
  MaskQL.dirtyPaths (fst loaded_user1) = [] /\
  MaskQL.deletedPaths (fst loaded_user1) = [] /\
  snd (MaskQL.save (H := engine_model) None (fst loaded_user1) (snd loaded_user1)) =
    snd loaded_user1 /\
  (MaskQL.no_object (fst loaded_user1) = false ->
   fst (fst (MaskQL.save (H := engine_model) None (fst loaded_user1)
                         (snd loaded_user1))) = Returned tt).
Proof.
  split; [reflexivity | split; [reflexivity|]].
  exact (save_without_changes_calls_nothing (H := engine_model) None
           (fst loaded_user1) (snd loaded_user1) eq_refl eq_refl).
Defined.

(** C8 on the code.  The empty object id is malformed: [use] and [exists]
    throw on it.  [deleteObject] given it on an instance with [user:1]
    loaded throws nothing, has D1 delete the rows of [user:1], and resets
    the instance. *)
Theorem deleteObject_of_empty_id_deletes_loaded_object :
  isValidObjId "" = false /\
  fst (fst (MaskQL.use (H := engine_model) "" None
                       (fst loaded_user1) (snd loaded_user1))) =
    Thrown "Invalid object ID: " /\
  fst (fst (MaskQL.exists_ "" None (fst loaded_user1) (snd loaded_user1))) =
    Thrown "Invalid object ID: " /\
  MaskQL.deleteObject (Some "") None (fst loaded_user1) (snd loaded_user1) =
    (Returned tt,
     MaskQL.constructor,
     World [Row "user:2" "name" "Bob" "string"]
           [D1_all "user:1"; D1_run "user:1"] [] 1).
Proof.
  repeat split.
Qed.

Lemma invalid_argument_throws_first_witness :
  isValidObjId " user:1" = false /\
  truthy " user:1" = true /\
  isValidPath "profile..age" = false /\
  MaskQL.use (H := engine_model) " user:1" None (fst loaded_user1) (snd loaded_user1) =
    (Thrown "Invalid object ID:  user:1", fst loaded_user1, snd loaded_user1) /\
  MaskQL.deleteObject (Some " user:1") None (fst loaded_user1) (snd loaded_user1) =
    (Thrown "Invalid object ID:  user:1", fst loaded_user1, snd loaded_user1) /\
  MaskQL.set (H := engine_model) "profile..age" (JsVal 0 (VNum 31))
             (fst loaded_user1) =
    (Thrown "Invalid path: profile..age", fst loaded_user1).
Proof.
  pose proof (invalid_argument_throws_first (H := engine_model)
                " user:1" "profile..age" (JsVal 0 (VNum 31)) None
                (fst loaded_user1) (snd loaded_user1)) as [Hid Hpath].
  destruct (Hid eq_refl) as (Huse & _ & Hdel).
  destruct (Hpath eq_refl) as (_ & Hset & _).
  split; [reflexivity | split; [reflexivity | split; [reflexivity|]]].
  split; [exact Huse | split; [exact (Hdel eq_refl) | exact Hset]].
Defined.

(** C10 on the code.  [toString] is a valid path and no key of [flatData];
    [delete] of it marks the path deleted, and the instance then has
    unsaved changes, because [in] finds the name in [Object.prototype]. *)
Theorem delete_of_inherited_name_marks_deleted :
  let deleted :=
    MaskQL.delete (H := engine_model) "toString" (fst loaded_user1) in
  isValidPath "toString" = true /\
  keys (MaskQL.flatData (fst loaded_user1)) = ["profile.age"] /\
  MaskQL.hasUnsavedChanges (fst loaded_user1) = false /\
  fst deleted = Returned tt /\
  MaskQL.deletedPaths (snd deleted) = ["toString"] /\
  MaskQL.hasUnsavedChanges (snd deleted) = true.
Proof.
  cbv zeta. repeat split.
Qed.

Lemma delete_of_path_not_in_flatData_is_noop_witness :
  isValidPath "profile.name" = true /\
  MaskQL.no_object (fst loaded_user1) = false /\
  js_in (H := engine_model) "profile.name" (MaskQL.flatData (fst loaded_user1)) =
    false /\
  MaskQL.delete (H := engine_model) "profile.name" (fst loaded_user1) =
    (Returned tt, fst loaded_user1).
Proof.
  split; [reflexivity | split; [reflexivity | split; [reflexivity|]]].
  exact (delete_of_path_not_in_flatData_is_noop (H := engine_model)
           "profile.name" (fst loaded_user1)
           eq_refl eq_refl eq_refl).
Defined.

(* ------------------------------------------------------------------ *)
(** ** [flatten] *)

Section FlattenFacts.
Context `{Engine}.

(** C9.  At the top level, where the prefix is empty, a value that is not a
    plain object (null, undefined, a primitive, an array, a date) is
    flattened to the empty mapping. *)
Theorem flatten_of_non_object_is_empty (obj : value) :
  is_plain_object obj = false ->
  flatten obj "" [] = [].
Proof.
  destruct obj; simpl; intros E; try reflexivity. discriminate.
Qed.

Lemma leaves_nests p ps :
  leaves (VObj (p :: ps)) = leaves_of_props (p :: ps).
Proof.
  destruct p as [k x]. unfold leaves_of_props. cbn [leaves flat_map fst snd].
  f_equal. induction ps as [|[k' x'] ps IH]; [reflexivity|].
  cbn [flat_map fst snd]. now rewrite <- IH.
Qed.


Lemma fold_write_under prefix k l result :
  fold_left (write prefix) (map (under k) l) result =
  fold_left (write (if truthy prefix then prefix +++ "." +++ k else k)) l result.
Proof.
  revert result. induction l as [|e l IH]; intros result; simpl.
  - reflexivity.
  - rewrite IH. reflexivity.
Qed.

(** The loop of [flatten] over the properties that are left. *)
Lemma flatten_loop prefix k x ps result :
  flatten (VObj ((k, x) :: ps)) prefix result =
  match ps with
  | [] => fun r => r
  | _ :: _ => flatten (VObj ps) prefix
  end
    (let newPrefix := if truthy prefix then prefix +++ "." +++ k else k in
     match x with
     | VNull | VUndef => js_put newPrefix (VStr "") result
     | VArr _ => js_put newPrefix (VStr (JSON_stringify x)) result
     | VDate iso => js_put newPrefix (VStr iso) result
     | VObj [] => js_put newPrefix (VStr "{}") result
     | VObj (_ :: _) => flatten x newPrefix result
     | VBool _ | VNum _ | VStr _ => js_put newPrefix x result
     end).
Proof.
  destruct ps as [|[k' x'] ps]; reflexivity.
Qed.

(** [flatten] on an object with keys writes its leaves one after the other,
    each at the path its keys lead to. *)
Lemma flatten_writes_leaves (v : value) :
  forall prefix result,
    nests v = true ->
    flatten v prefix result = fold_left (write prefix) (leaves v) result.
Proof.
  induction v as [| | | | | |props IH|] using value_induction;
    intros prefix result Hn; try discriminate.
  destruct props as [|p ps]; [discriminate|]. clear Hn.
  rewrite leaves_nests. unfold leaves_of_props.
  revert p result IH. induction ps as [|p' ps IHps]; intros [k x] result IH;
    rewrite flatten_loop; inversion IH as [|? ? Hx Hl]; subst;
    cbn [flat_map fst snd]; rewrite fold_left_app, fold_write_under.
  - cbn [fold_left]. cbv zeta.
    destruct x as [| | | | | |[|q qs]|]; try reflexivity.
    apply (Hx _ result eq_refl).
  - rewrite (IHps p' _ Hl). f_equal. cbv zeta.
    destruct x as [| | | | | |[|q qs]|]; try reflexivity.
    apply (Hx _ result eq_refl).
Qed.

End FlattenFacts.

Lemma flatten_of_non_object_is_empty_witness :
  is_plain_object (VArr [VNum 1; VNum 2]) = false /\
  flatten (H := engine_model) (VArr [VNum 1; VNum 2]) "" [] = [].
Proof.
  split; [reflexivity|].
  exact (flatten_of_non_object_is_empty (H := engine_model)
           (VArr [VNum 1; VNum 2]) eq_refl).
Defined.

(* ------------------------------------------------------------------ *)
(** ** Paths and their keys *)

Lemma split_not_nil c s : split c s <> [].
Proof.
  destruct s as [|a s]; simpl; [discriminate|].
  destruct (Ascii.eqb a c); [discriminate|].
  destruct (split c s); discriminate.
Qed.







(* ------------------------------------------------------------------ *)
(** ** [unflatten] after [flatten] *)

Lemma distinct_cons k l :
  distinct (k :: l) = true -> ~ In k l /\ distinct l = true.
Proof.
  cbn [distinct]. rewrite andb_true_iff, negb_true_iff.
  intros [E1 E2]. split; [|exact E2].
  intros G. apply set_has_In in G. congruence.
Qed.

(** Writing entries with new, distinct keys one after the other appends
    them. *)
Lemma fold_setOwn_fresh {A : Type} (l r : list (string * A)) :
  NoDup (keys l) ->
  (forall k, In k (keys l) -> ~ In k (keys r)) ->
  fold_left (fun acc kv => setOwn (fst kv) (snd kv) acc) l r = r ++ l.
Proof.
  revert r. induction l as [|[k v] l IH]; intros r Hn Hd.
  - now rewrite app_nil_r.
  - cbn [fold_left fst snd]. inversion Hn as [|? ? Hk Hn']; subst.
    rewrite setOwn_fresh.
    + rewrite IH; [now rewrite <- app_assoc | exact Hn' |].
      intros k' Hk'. unfold keys. rewrite map_app, in_app_iff.
      intros [G|[G|[]]].
      * apply (Hd k'); [now right | exact G].
      * simpl in G. subst k'. now apply Hk.
    + destruct (hasOwn k r) eqn:E; [|reflexivity].
      apply hasOwn_In in E. exfalso. apply (Hd k); [now left | exact E].
Qed.

Lemma eqb_proto k : k <> "__proto__" -> String.eqb k "__proto__" = false.
Proof. intros N. now apply String.eqb_neq. Qed.





Section RoundTrip.
Context `{Engine}.




(** Every leaf of an object lies below one of its keys. *)
Lemma leaves_of_props_In props e :
  In e (leaves_of_props props) ->
  exists k x e',
    In (k, x) props /\ In e' (leaves x) /\ e = under k e'.
Proof.
  unfold leaves_of_props. rewrite in_flat_map.
  intros [[k x] [Hkx He]]. cbn [fst snd] in He. apply in_map_iff in He.
  destruct He as [e' [<- He']]. now exists k, x, e'.
Qed.








End RoundTrip.

Section Rebuild.
Context `{Engine}.








End Rebuild.

(* ------------------------------------------------------------------ *)
(** ** The codec on the examples *)

(** The examples in the comments of [flatten] and [unflatten]. *)
Example flatten_documented_examples :
  flatten (H := engine_model) (VObj [("a", VObj [("b", VNum 1)])]) "" [] =
    [("a.b", VNum 1)] /\
  flatten (H := engine_model) (VObj [("arr", VArr [VNum 1; VNum 2])]) "" [] =
    [("arr", VStr "[1,2]")] /\
  flatten (H := engine_model) (VObj [("val", VNull)]) "" [] = [("val", VStr "")] /\
  unflatten (H := engine_model) [("a.b", VNum 1)] =
    Some (VObj [("a", VObj [("b", VNum 1)])]) /\
  unflatten (H := engine_model) [("arr", VStr "[1,2]")] =
    Some (VObj [("arr", VArr [VNum 1; VNum 2])]) /\
  unflatten (H := engine_model) [("val", VStr "")] = Some (VObj [("val", VNull)]).
Proof.
  repeat split.
Qed.


(** The other values outside the domain of the round trip: a value
    that is no object, a key with a dot, an empty top-level key that holds
    an object with keys, strings that read as [{}] or as JSON text, and an
    own key [__proto__] (as [JSON.parse] creates one), which [flatten] drops
    at the top level and [unflatten] drops below it. *)
Example unflatten_flatten_outside_domain :
  unflatten (H := engine_model)
    (flatten (H := engine_model)
       (VObj [("__proto__", VNum 1); ("b", VNum 2)]) "" []) =
    Some (VObj [("b", VNum 2)]) /\
  unflatten (H := engine_model)
    (flatten (H := engine_model)
       (VObj [("x", VObj [("__proto__", VNum 1)])]) "" []) =
    Some (VObj [("x", VObj [])]) /\
  unflatten (H := engine_model)
    (flatten (H := engine_model) (VArr [VNum 1]) "" []) = Some (VObj []) /\
  unflatten (H := engine_model)
    (flatten (H := engine_model) (VObj [("a.b", VNum 1)]) "" []) =
    Some (VObj [("a", VObj [("b", VNum 1)])]) /\
  unflatten (H := engine_model)
    (flatten (H := engine_model) (VObj [("", VObj [("b", VNum 1)])]) "" []) =
    Some (VObj [("b", VNum 1)]) /\
  unflatten (H := engine_model)
    (flatten (H := engine_model) (VObj [("a", VStr "{}")]) "" []) =
    Some (VObj [("a", VObj [])]) /\
  unflatten (H := engine_model)
    (flatten (H := engine_model) (VObj [("a", VStr "[1]")]) "" []) =
    Some (VObj [("a", VArr [VNum 1])]).
Proof.
  repeat split.
Qed.



(* ------------------------------------------------------------------ *)
(** ** Where [setAll] goes wrong, and where it does not *)

Section SetAllFacts.
Context `{Engine}.

(** The two trackers after the second loop of [setAll]. *)
Lemma install_trackers entries s path :
  (In path (MaskQL.dirtyPaths (MaskQL.install entries s)) <->
   In path (MaskQL.dirtyPaths s) \/ In path (keys entries)) /\
  (In path (MaskQL.deletedPaths (MaskQL.install entries s)) <->
   In path (MaskQL.deletedPaths s) /\ ~ In path (keys entries)).
Proof.
  revert s. induction entries as [|[p v] rest IH]; intros s.
  - simpl. tauto.
  - cbn [MaskQL.install keys map fst].
    destruct (IH (MaskQL.Session (MaskQL.currentObjId s)
                    (js_set p (JsVal 0 v) (MaskQL.flatData s))
                    (MaskQL.originalFlatData s)
                    (set_add p (MaskQL.dirtyPaths s))
                    (set_delete p (MaskQL.deletedPaths s)))) as [E1 E2].
    fold (keys rest) in E1, E2. rewrite E1, E2.
    cbn [MaskQL.dirtyPaths MaskQL.deletedPaths In].
    rewrite In_set_add, In_set_delete.
    split; split; intuition (subst; auto).
Qed.

Lemma fold_set_add l d path :
  In path (fold_left (fun d p => set_add p d) l d) <-> In path d \/ In path l.
Proof.
  revert d. induction l as [|p l IH]; intros d; simpl; [tauto|].
  rewrite IH, In_set_add. intuition (subst; auto).
Qed.

(** The trackers after [setAll] on a loaded instance. *)
Lemma setAll_trackers obj s path :
  MaskQL.no_object s = false ->
  let s' := snd (MaskQL.setAll obj s) in
  (In path (MaskQL.dirtyPaths s') <->
   In path (MaskQL.dirtyPaths s) \/ In path (keys (flatten obj "" []))) /\
  (In path (MaskQL.deletedPaths s') <->
   (In path (MaskQL.deletedPaths s) \/ In path (keys (MaskQL.flatData s))) /\
   ~ In path (keys (flatten obj "" []))).
Proof.
  intros Hl. unfold MaskQL.setAll. rewrite Hl. cbn [snd].
  match goal with
  | |- context [MaskQL.install ?es ?s0] =>
      destruct (install_trackers es s0 path) as [E1 E2]
  end.
  cbv zeta. rewrite E1, E2. cbn [MaskQL.dirtyPaths MaskQL.deletedPaths].
  rewrite fold_set_add. tauto.
Qed.

(** [setAll] keeps the trackers apart when every path that is dirty before
    the call is a path of the new object. *)
Lemma setAll_disjoint_trackers obj s :
  (forall path, In path (MaskQL.dirtyPaths s) ->
                In path (keys (flatten obj "" []))) ->
  disjoint_trackers s ->
  disjoint_trackers (snd (MaskQL.setAll obj s)).
Proof.
  intros Hd Inv. destruct (MaskQL.no_object s) eqn:Hl.
  - unfold MaskQL.setAll. now rewrite Hl.
  - intros path H1 H2.
    destruct (setAll_trackers obj s path Hl) as [E1 E2].
    apply E1 in H1. apply E2 in H2. destruct H2 as [_ N].
    destruct H1 as [H1|H1]; [apply N, Hd, H1 | exact (N H1)].
Qed.

(** Without [setAll], no program of calls on a new instance brings a path
    into both trackers. *)
Lemma run_disjoint_trackers program s w :
  forallb (fun c => negb (is_setAll c)) program = true ->
  disjoint_trackers s ->
  disjoint_trackers (fst (run program (s, w))).
Proof.
  revert s w. induction program as [|c program IH]; intros s w Hp Inv.
  - exact Inv.
  - simpl in Hp. apply andb_true_iff in Hp. destruct Hp as [Hc Hp].
    apply negb_true_iff in Hc.
    change (run (c :: program) (s, w)) with (run program (step c (s, w))).
    pose proof (step_disjoint_trackers c s w Hc Inv) as Inv'.
    destruct (step c (s, w)) as [s1 w1]. now apply IH.
Qed.

End SetAllFacts.

(* ------------------------------------------------------------------ *)
(** ** The rows a batch of [save] leaves *)

Lemma In_stored_paths objId t q :
  In q (map key_path (select objId t)) <->
  exists r, In r t /\ obj_id r = objId /\ key_path r = q.
Proof.
  unfold select. rewrite in_map_iff. split.
  - intros [r [E Hr]]. apply filter_In in Hr. destruct Hr as [Hr Ho].
    apply String.eqb_eq in Ho. now exists r.
  - intros [r (Hr & Ho & E)]. exists r. split; [exact E|].
    apply filter_In. split; [exact Hr | now apply String.eqb_eq].
Qed.

Lemma row_is_spec objId p r :
  row_is objId p r = true <-> obj_id r = objId /\ key_path r = p.
Proof.
  unfold row_is. now rewrite andb_true_iff, !String.eqb_eq.
Qed.

Lemma upsert_stored_paths objId p sv vt t q :
  In q (map key_path (select objId (upsert objId p sv vt t))) <->
  q = p \/ In q (map key_path (select objId t)).
Proof.
  induction t as [|r t IH].
  - simpl. rewrite String.eqb_refl. simpl. intuition.
  - cbn [upsert]. destruct (row_is objId p r) eqn:E.
    + apply row_is_spec in E. destruct E as [Eo Ep].
      cbn [select filter obj_id]. rewrite String.eqb_refl, Eo, String.eqb_refl.
      cbn [map key_path In]. rewrite Ep. intuition.
    + cbn [select filter]. fold (select objId (upsert objId p sv vt t)).
      fold (select objId t). destruct (String.eqb (obj_id r) objId).
      * cbn [map In]. rewrite IH. intuition.
      * exact IH.
Qed.

Lemma delete_stored_paths objId p t q :
  In q (map key_path
          (select objId (filter (fun r => negb (row_is objId p r)) t))) <->
  q <> p /\ In q (map key_path (select objId t)).
Proof.
  rewrite !In_stored_paths. split.
  - intros [r (Hr & Ho & Eq)]. apply filter_In in Hr. destruct Hr as [Hr N].
    split; [|now exists r]. intros ->. apply negb_true_iff in N.
    assert (G : row_is objId (key_path r) r = true) by now apply row_is_spec.
    congruence.
  - intros [N [r (Hr & Ho & Eq)]]. exists r. split; [|now split].
    apply filter_In. split; [exact Hr|]. apply negb_true_iff.
    destruct (row_is objId p r) eqn:E; [|reflexivity].
    apply row_is_spec in E. destruct E as [_ E]. congruence.
Qed.

Section BatchFacts.
Context `{Engine}.

Lemma deletes_stored_paths objId (orig : object) l t q :
  In q (map key_path
          (select objId
             (fold_left execute
                (flat_map (fun path =>
                             if js_in path orig then [DELETE objId path] else [])
                          l) t))) <->
  In q (map key_path (select objId t)) /\
  ~ (In q l /\ js_in q orig = true).
Proof.
  revert t. induction l as [|p l IH]; intros t.
  - simpl. tauto.
  - cbn [flat_map]. rewrite fold_left_app, IH.
    destruct (js_in p orig) eqn:E; cbn [fold_left execute In].
    + rewrite delete_stored_paths. intuition (subst; auto; congruence).
    + intuition (subst; auto; congruence).
Qed.

Lemma upserts_stored_paths objId (flat : object) l t q :
  In q (map key_path
          (select objId
             (fold_left execute
                (map (fun path =>
                        let value := js_index flat path in
                        let '(serializedValue, valueType) :=
                          toStorageFormat_member value in
                        UPSERT objId path serializedValue valueType) l) t))) <->
  In q l \/ In q (map key_path (select objId t)).
Proof.
  revert t. induction l as [|p l IH]; intros t.
  - simpl. tauto.
  - cbn [map fold_left]. rewrite IH. cbv zeta.
    destruct (toStorageFormat_member (js_index flat p)) as [sv vt].
    cbn [execute In]. rewrite upsert_stored_paths. intuition.
Qed.

(** The rows stored for the loaded object after the statements of [save]:
    the dirty paths, and the stored paths for which no delete was
    prepared. *)
Lemma statements_stored_paths objId s t q :
  In q (map key_path
          (select objId (batch (MaskQL.statements_of objId s) t))) <->
  In q (MaskQL.dirtyPaths s) \/
  (In q (map key_path (select objId t)) /\
   ~ (In q (MaskQL.deletedPaths s) /\
      js_in q (MaskQL.originalFlatData s) = true)).
Proof.
  unfold batch, MaskQL.statements_of.
  rewrite fold_left_app, upserts_stored_paths, deletes_stored_paths.
  reflexivity.
Qed.

(** The table after a [save] that D1 does not reject. *)
Lemma save_table s w objId :
  MaskQL.currentObjId s = Some objId ->
  truthy objId = true ->
  fst (fst (MaskQL.save None s w)) = Returned tt /\
  table (snd (MaskQL.save None s w)) =
    batch (MaskQL.statements_of objId s) (table w).
Proof.
  intros Hid Ht. unfold MaskQL.save. rewrite Hid, Ht. cbn [negb].
  destruct (MaskQL.statements_of objId s) eqn:E; split; reflexivity.
Qed.

(** Where [setAll] and [save] do replace the stored object.  On an
    instance with an object loaded, whose dirty paths are all paths of
    [obj] and whose stored paths are all found [in] the snapshot and are
    still held or already marked deleted, [setAll obj] followed by a [save]
    that D1 accepts leaves exactly the keys of [flatten obj] stored for the
    object. *)
Theorem setAll_save_persists_flattened_keys
    (obj : value) (objId : string) (s : MaskQL.session) (w : world) :
  MaskQL.currentObjId s = Some objId ->
  truthy objId = true ->
  (forall path, In path (MaskQL.dirtyPaths s) ->
                In path (keys (flatten obj "" []))) ->
  (forall path, In path (persisted_paths objId w) ->
                js_in path (MaskQL.originalFlatData s) = true /\
                (In path (keys (MaskQL.flatData s)) \/
                 In path (MaskQL.deletedPaths s))) ->
  let s1 := snd (MaskQL.setAll obj s) in
  let saved := MaskQL.save None s1 w in
  fst (fst saved) = Returned tt /\
  forall path,
    In path (persisted_paths objId (snd saved)) <->
    In path (keys (flatten obj "" [])).
Proof.
  intros Hid Ht Hdirty Hstored s1 saved.
  assert (Hl : MaskQL.no_object s = false).
  { unfold MaskQL.no_object. now rewrite Hid, Ht. }
  assert (Hid1 : MaskQL.currentObjId s1 = Some objId).
  { unfold s1, MaskQL.setAll. rewrite Hl. cbn [snd].
    now rewrite install_currentObjId. }
  assert (Ho1 : MaskQL.originalFlatData s1 = MaskQL.originalFlatData s).
  { unfold s1, MaskQL.setAll. rewrite Hl. cbn [snd].
    now rewrite install_originalFlatData. }
  destruct (save_table s1 w objId Hid1 Ht) as [Eo Et].
  split; [exact Eo|]. intros path. unfold persisted_paths. fold saved in Et.
  rewrite Et, statements_stored_paths, Ho1.
  destruct (setAll_trackers obj s path Hl) as [E1 E2]. fold s1 in E1, E2.
  rewrite E1, E2. split.
  - intros [[G|G]|[G N]]; [now apply Hdirty | exact G |].
    destruct (Hstored path G) as [Ho Hheld].
    destruct (in_dec string_dec path (keys (flatten obj "" []))) as [K|K];
      [exact K|].
    exfalso. apply N. split; [|exact Ho]. split; [tauto | exact K].
  - intros G. left. now right.
Qed.

End BatchFacts.

(** [setAll_save_persists_flattened_keys] on the instance that has just
    loaded [user:1]: after the replacement the stored paths are the two
    paths of the new profile. *)
Example setAll_save_on_loaded_user1 :
  let obj := VObj [("profile", VObj [("name", VStr "Alice"); ("age", VNum 30)])] in
  let s1 := snd (MaskQL.setAll (H := engine_model) obj (fst loaded_user1)) in
  let saved := MaskQL.save (H := engine_model) None s1 (snd loaded_user1) in
  persisted_paths "user:1" (snd loaded_user1) = ["profile.age"] /\
  fst (fst saved) = Returned tt /\
  forall path,
    In path (persisted_paths "user:1" (snd saved)) <->
    In path ["profile.name"; "profile.age"].
Proof.
  cbv zeta. split; [reflexivity|].
  apply (setAll_save_persists_flattened_keys (H := engine_model)
           (VObj [("profile", VObj [("name", VStr "Alice"); ("age", VNum 30)])])
           "user:1" (fst loaded_user1) (snd loaded_user1)).
  - reflexivity.
  - reflexivity.
  - intros path [].
  - intros path [<-|[]]. split; [reflexivity | left; now left].
Defined.

(** Empty keys below the top level, or on a leaf, are in the domain of the
    round trip. *)
Example round_trip_with_empty_keys :
  let v := VObj [("a", VObj [("", VObj [("x", VNum 1)])]); ("", VNum 5)] in
  round_trips (H := engine_model) v /\
  flatten (H := engine_model) v "" [] = [("a..x", VNum 1); ("", VNum 5)] /\
  unflatten (H := engine_model) [("a..x", VNum 1); ("", VNum 5)] = Some v.
Proof.
  cbv zeta. split; [|split; reflexivity]. split.
  - cbn [stable]. repeat split.
  - repeat constructor; discriminate.
Qed.

(* ================================================================== *)
(** * Further properties of the code *)

(* ------------------------------------------------------------------ *)
(** ** types.js: the storage format *)

Section StorageFacts.
Context `{Engine}.

(** The storage format gives back the values that are [storable]: what
    [fromStorageFormat] decodes from the text and the type tag that
    [toStorageFormat] wrote for such a value is the value. *)
Theorem fromStorageFormat_toStorageFormat (v : value) :
  storable v ->
  fromStorageFormat (fst (toStorageFormat v)) (snd (toStorageFormat v)) = v.
Proof.
  unfold fromStorageFormat, toStorageFormat, deserializeValue.
  destruct v as [| |b|n|s|elems|props|iso]; cbn [storable fst snd];
    intros Hs; try contradiction.
  - reflexivity.
  - destruct b; reflexivity.
  - destruct Hs as (Hn & N & E). cbn [serializeValue getValueType].
    apply String.eqb_neq in N. rewrite N. cbn. now rewrite E, Hn.
  - cbn [serializeValue getValueType]. apply String.eqb_neq in Hs.
    rewrite Hs. reflexivity.
  - destruct Hs as [N E]. cbn [serializeValue getValueType].
    apply String.eqb_neq in N. rewrite N, E. reflexivity.
  - destruct Hs as [N E]. cbn [serializeValue getValueType].
    apply String.eqb_neq in N. rewrite N, E. reflexivity.
Qed.

(** Whatever is written as the empty text is read back as [null]:
    [undefined] and the empty string are not kept by the storage format. *)
Lemma empty_text_is_null (v : value) :
  serializeValue v = "" ->
  fromStorageFormat (fst (toStorageFormat v)) (snd (toStorageFormat v)) = VNull.
Proof.
  unfold fromStorageFormat, toStorageFormat, deserializeValue. cbn [fst snd].
  intros ->. now rewrite orb_true_r.
Qed.

End StorageFacts.

Lemma fromStorageFormat_toStorageFormat_witness :
  storable (H := engine_model) (VArr [VNum 1; VStr "two"; VNull]) /\
  fromStorageFormat (H := engine_model)
    (fst (toStorageFormat (H := engine_model) (VArr [VNum 1; VStr "two"; VNull])))
    (snd (toStorageFormat (H := engine_model) (VArr [VNum 1; VStr "two"; VNull]))) =
    VArr [VNum 1; VStr "two"; VNull].
Proof.
  assert (Hs : storable (H := engine_model) (VArr [VNum 1; VStr "two"; VNull])).
  { split; [discriminate | reflexivity]. }
  split; [exact Hs|].
  exact (fromStorageFormat_toStorageFormat (H := engine_model) _ Hs).
Defined.

(** Numbers in the storage format: an integer comes back, [NaN] is written
    as the text [NaN] and comes back as [0]. *)
Example numbers_in_storage :
  storable (H := engine_model) (VNum 42) /\
  toStorageFormat (H := engine_model) (VNum 42) = ("42", "number") /\
  fromStorageFormat (H := engine_model) "42" "number" = VNum 42 /\
  toStorageFormat (H := engine_model) (VNum (Num "NaN")) = ("NaN", "number") /\
  fromStorageFormat (H := engine_model) "NaN" "number" = VNum 0.
Proof.
  split; [|repeat split]. split; [reflexivity | split; [discriminate | reflexivity]].
Qed.

(* ------------------------------------------------------------------ *)
(** ** types.js: valid paths *)

Lemma startsWith_dot_rev s acc :
  startsWith "." (string_rev_onto acc s) =
  if truthy s then startsWith "." (string_rev_onto "" s)
  else startsWith "." acc.
Proof.
  revert acc. induction s as [|b s IH]; intros acc; [reflexivity|].
  cbn [string_rev_onto truthy]. rewrite (IH (String b acc)), (IH (String b "")).
  destruct (truthy s); reflexivity.
Qed.

(** A string ends with a dot when its last character is one. *)
Lemma endsWith_dot_cons a s :
  endsWith "." (String a s) =
  if truthy s then endsWith "." s else Ascii.eqb "." a.
Proof.
  unfold endsWith, string_rev. cbn [string_rev_onto].
  rewrite startsWith_dot_rev. destruct (truthy s); [reflexivity|].
  cbn. now rewrite andb_true_r.
Qed.

(** The four tests of [isValidPath] on the dots of a path say that no
    segment is empty; after a character that is no dot they say so of the
    segments that follow the first. *)
Lemma dots_and_segments s :
  (truthy s && negb (startsWith "." s) && negb (endsWith "." s)
     && negb (includes ".." s) =
   forallb truthy (split "." s)) /\
  (negb (endsWith "." s) && negb (includes ".." s) =
   forallb truthy (tl (split "." s))).
Proof.
  induction s as [|a s [IH1 IH2]]; [split; reflexivity|].
  assert (Ei : includes ".." (String a s) =
               (Ascii.eqb "." a && startsWith "." s) || includes ".." s)
    by reflexivity.
  assert (Es : startsWith "." (String a s) = Ascii.eqb "." a)
    by (cbn [startsWith]; apply andb_true_r).
  assert (Ee : (if truthy s then endsWith "." s else false) = endsWith "." s)
    by (destruct s; reflexivity).
  rewrite endsWith_dot_cons, Ei, Es. cbn [truthy split].
  destruct (Ascii.eqb_spec a ".") as [->|N].
  - rewrite Ascii.eqb_refl. cbn [forallb tl truthy andb negb orb].
    split; [reflexivity|]. rewrite <- IH1.
    destruct s as [|b s]; [reflexivity|].
    set (x := endsWith "." (String b s)).
    set (y := startsWith "." (String b s)).
    set (z := includes ".." (String b s)).
    cbn [truthy andb]. destruct x, y, z; reflexivity.
  - assert (E : Ascii.eqb "." a = false).
    { apply Ascii.eqb_neq. congruence. }
    rewrite E, Ee. cbn [andb orb negb].
    pose proof (split_not_nil "." s) as Hne.
    destruct (split "." s) as [|w ws] eqn:Es'; [contradiction|].
    cbn [forallb tl truthy andb]. cbn [tl] in IH2.
    split; exact IH2.
Qed.

(** A path is valid exactly when it has no white space at either end and
    none of the segments between its dots is empty. *)
Theorem isValidPath_segments (path : string) :
  isValidPath path = true <->
  trim path = path /\ forallb truthy (split "." path) = true.
Proof.
  destruct (dots_and_segments path) as [E _]. rewrite <- E.
  unfold isValidPath.
  destruct (truthy path); cbn [negb andb];
    [|split; [discriminate | intros [_ G]; discriminate]].
  destruct (String.eqb_spec (trim path) path) as [Et|Nt]; cbn [negb].
  - destruct (startsWith "." path); cbn [orb negb andb];
      [split; [discriminate | intros [_ G]; discriminate]|].
    destruct (endsWith "." path); cbn [negb andb];
      [split; [discriminate | intros [_ G]; discriminate]|].
    destruct (includes ".." path); cbn [negb];
      [split; [discriminate | intros [_ G]; discriminate]|].
    split; auto.
  - split; [discriminate | intros [G _]; contradiction].
Qed.

(* ------------------------------------------------------------------ *)
(** ** flatten.js: what [flatten] writes *)

Lemma setOwn_well_formed (P : value -> Prop) k v (o : list (string * value)) :
  P v ->
  NoDup (keys o) /\ Forall (fun kv => P (snd kv)) o ->
  NoDup (keys (setOwn k v o)) /\ Forall (fun kv => P (snd kv)) (setOwn k v o).
Proof.
  intros Hv [Hn Hf]. split.
  - rewrite keys_setOwn. destruct (hasOwn k o) eqn:E; [exact Hn|].
    apply NoDup_app; [exact Hn | repeat constructor; intros [] |].
    intros k' Hk' [<-|[]]. apply hasOwn_In in Hk'. congruence.
  - induction o as [|[k' v'] o IH]; cbn [setOwn].
    + now repeat constructor.
    + inversion Hf as [|? ? Hv' Hf']; subst. inversion Hn; subst.
      destruct (String.eqb k k'); constructor; auto.
Qed.

Section FlattenOutput.
Context `{Engine}.

Lemma encode_primitive (v : value) : is_primitive (encode v) = true.
Proof. destruct v; reflexivity. Qed.

Lemma leaves_primitive (v : value) :
  forall e, In e (leaves v) -> is_primitive (snd e) = true.
Proof.
  induction v as [| | | | | |props IH|] using value_induction;
    intros e He; try (destruct He as [<-|[]]; reflexivity).
  destruct props as [|p ps]; [destruct He as [<-|[]]; reflexivity|].
  rewrite leaves_nests in He. apply leaves_of_props_In in He.
  destruct He as (k & x & e' & Hkx & He' & ->).
  rewrite Forall_forall in IH. exact (IH _ Hkx e' He').
Qed.

Lemma js_put_flat_result k v (o : list (string * value)) :
  is_primitive v = true -> flat_result o -> flat_result (js_put k v o).
Proof.
  intros Hv (Hn & Hf & Hp). unfold js_put.
  destruct (String.eqb_spec k "__proto__") as [->|N].
  - rewrite Hp. cbn. now repeat split.
  - rewrite orb_true_r.
    destruct (setOwn_well_formed (fun v => is_primitive v = true) k v o Hv
                (conj Hn Hf)) as [Hn' Hf'].
    repeat split; try assumption.
    rewrite hasOwn_set, Hp, orb_false_r. apply String.eqb_neq. congruence.
Qed.

Lemma flatten_output (obj : value) (prefix : string) :
  flat_result (flatten obj prefix []).
Proof.
  assert (Hnil : flat_result []) by (repeat split; constructor).
  destruct (nests obj) eqn:En.
  - rewrite flatten_writes_leaves by exact En.
    pose proof (leaves_primitive obj) as Hl. revert Hl Hnil.
    generalize (@nil (string * value)) as result.
    induction (leaves obj) as [|e l IH]; intros result Hl Hr; [exact Hr|].
    cbn [fold_left]. apply IH; [intros e' He'; apply Hl; now right|].
    unfold write. apply js_put_flat_result; [apply Hl; now left | exact Hr].
  - destruct obj as [| | | | | |[|p ps]|]; try discriminate; cbn [flatten];
      destruct (truthy prefix); try exact Hnil;
      now apply js_put_flat_result.
Qed.

(** Whatever the value, [flatten] returns a mapping whose keys are distinct
    and whose values are strings, numbers and booleans only: no array, no
    object, no [null] and no [undefined] is ever stored as a leaf. *)
Theorem flatten_well_formed (obj : value) (prefix : string) :
  NoDup (keys (flatten obj prefix [])) /\
  Forall (fun kv => is_primitive (snd kv) = true) (flatten obj prefix []).
Proof.
  destruct (flatten_output obj prefix) as (Hn & Hf & _). now split.
Qed.

End FlattenOutput.

(* ------------------------------------------------------------------ *)
(** ** flatten.js: [getDiff] and [getDeletedKeys] *)

(** [===] holds of a value and itself, unless the value is [NaN]. *)
Lemma strict_eq_refl (v : jsval) :
  match val v with VNum n => isNaN n = false | _ => True end ->
  strict_eq v v = true.
Proof.
  unfold strict_eq, number_eqb. destruct (val v); intros E;
    auto using Bool.eqb_reflx, String.eqb_refl, Nat.eqb_refl.
  now rewrite E, String.eqb_refl.
Qed.

Lemma ordinary_not_proto k : ordinary k = true -> k <> "__proto__".
Proof. intros E ->. discriminate E. Qed.

(** Away from [__proto__] an assignment writes an own property. *)
Lemma js_set_plain k v (o : object) :
  k <> "__proto__" -> js_set k v o = Object (proto o) (setOwn k v o).
Proof.
  intros N. unfold js_set. rewrite (eqb_proto k N).
  now rewrite andb_false_r.
Qed.

Section OrdinaryKeys.
Context `{Engine}.

(** On an object with the prototype [Object.prototype], a name that is no
    member of it is found when it is an own property, and read as it. *)
Lemma js_in_ordinary (o : object) k :
  proto o = Object_prototype -> ordinary k = true -> js_in k o = hasOwn k o.
Proof.
  unfold js_in, ordinary. intros -> E. apply negb_true_iff in E.
  now rewrite E, orb_false_r.
Qed.

Lemma js_index_ordinary (o : object) k :
  proto o = Object_prototype -> ordinary k = true ->
  js_index o k = Held (indexOwn o k).
Proof.
  unfold js_index, indexOwn. intros -> E.
  destruct (getOwn k o); [reflexivity|].
  pose proof (ordinary_not_proto k E) as N. rewrite (eqb_proto k N).
  destruct (String.eqb_spec k "constructor") as [->|_]; [discriminate E|].
  unfold ordinary in E. apply negb_true_iff in E. now rewrite E.
Qed.

(** An own property is found, and read. *)
Lemma js_in_own (o : object) k : hasOwn k o = true -> js_in k o = true.
Proof. unfold js_in. now intros ->. Qed.

Lemma js_index_own (o : object) k v :
  getOwn k o = Some v -> js_index o k = Held v.
Proof. unfold js_index. now intros ->. Qed.

End OrdinaryKeys.


(** In an object, a property is found under its key. *)
Lemma In_getOwn {A : Type} (k : string) (v : A) (o : list (string * A)) :
  NoDup (keys o) -> In (k, v) o -> getOwn k o = Some v.
Proof.
  induction o as [|[k' v'] o IH]; intros Hn Hin; [destruct Hin|].
  inversion Hn as [|? ? Hk Hn']; subst. cbn [getOwn].
  destruct Hin as [E|Hin].
  - inversion E; subst. now rewrite String.eqb_refl.
  - destruct (String.eqb_spec k k') as [->|N]; [|now apply IH].
    exfalso. apply Hk. unfold keys. apply in_map_iff. now exists (k', v).
Qed.

Lemma distinct_NoDup (l : list string) : distinct l = true -> NoDup l.
Proof.
  induction l as [|x l IH]; intros Hd; [constructor|].
  apply distinct_cons in Hd. destruct Hd as [N Hd]. constructor; auto.
Qed.

(** After entries with distinct keys are written one after the other, a key
    holds the value of its entry, or what it held before. *)
Lemma getOwn_written {A : Type} (k : string) (l o : list (string * A)) :
  NoDup (keys l) ->
  getOwn k (fold_left (fun o kv => setOwn (fst kv) (snd kv) o) l o) =
  match getOwn k l with
  | Some v => Some v
  | None => getOwn k o
  end.
Proof.
  revert o. induction l as [|[k' v'] l IH]; intros o Hn; [reflexivity|].
  inversion Hn as [|? ? Hk Hn']; subst. cbn [fold_left fst snd getOwn].
  rewrite (IH _ Hn'). destruct (String.eqb_spec k k') as [->|N].
  - now rewrite (getOwn_fresh k' l Hk), getOwn_set.
  - now rewrite (getOwn_set_other k k' v' o N).
Qed.

Lemma getOwn_removed {A : Type} (k : string) (l : list string)
    (o : list (string * A)) :
  getOwn k (fold_left (fun o k' => deleteOwn k' o) l o) =
  if set_has k l then None else getOwn k o.
Proof.
  revert o. induction l as [|k' l IH]; intros o; [reflexivity|].
  cbn [fold_left set_has]. rewrite IH, getOwn_delete.
  destruct (String.eqb k k'), (set_has k l); reflexivity.
Qed.

Section DiffFacts.
Context `{Engine}.

(** The keys [getDiff] has collected are keys of the new mapping, and stay
    distinct. *)
Lemma getDiff_entries_keys (old : object) entries (diff : object) :
  Forall (fun key => ordinary key = true) (keys entries) ->
  (NoDup (keys diff) -> NoDup (keys (getDiff_entries old entries diff))) /\
  (forall k, In k (keys (getDiff_entries old entries diff)) ->
             In k (keys entries) \/ In k (keys diff)).
Proof.
  revert diff. induction entries as [|[k v] rest IH]; intros diff Ho;
    [split; auto|].
  inversion Ho as [|? ? Hk Ho']; subst. cbn [getDiff_entries fst] in *.
  pose proof (js_set_plain k v diff (ordinary_not_proto k Hk)) as Es.
  destruct (IH (if negb (js_in k old) || negb (member_eq (js_index old k) v)
                then js_set k v diff else diff) Ho') as [IHn IHk].
  destruct (negb (js_in k old) || negb (member_eq (js_index old k) v)).
  - rewrite Es in *. cbn [own] in IHn, IHk. split.
    + intros Hn. apply IHn. rewrite keys_setOwn.
      destruct (hasOwn k diff) eqn:E; [exact Hn|].
      apply NoDup_app; [exact Hn | repeat constructor; intros [] |].
      intros k' Hk' [<-|[]]. apply hasOwn_In in Hk'. congruence.
    + intros k' Hk'. destruct (IHk k' Hk') as [G|G]; [left; now right|].
      apply In_keys_setOwn in G. destruct G as [->|G]; [left; now left|].
      now right.
  - split; [exact IHn|]. intros k' Hk'.
    destruct (IHk k' Hk') as [G|G]; [left; now right | now right].
Qed.

(** [getDiff] holds a key of the new mapping exactly when the old mapping
    lacks it or holds a value that is not [===] the new one, and holds it
    with the new value. *)
Lemma getDiff_entries_get (old : object) entries (diff : object) k :
  Forall (fun key => ordinary key = true) (keys entries) ->
  NoDup (keys entries) ->
  getOwn k (getDiff_entries old entries diff) =
  match getOwn k entries with
  | Some v =>
      if negb (js_in k old) || negb (member_eq (js_index old k) v)
      then Some v else getOwn k diff
  | None => getOwn k diff
  end.
Proof.
  revert diff. induction entries as [|[k' v'] rest IH]; intros diff Ho Hn;
    [reflexivity|].
  inversion Ho as [|? ? Hk' Ho']; subst.
  inversion Hn as [|? ? Hk Hn']; subst. cbn [getDiff_entries getOwn].
  rewrite (IH _ Ho' Hn'). cbn [fst] in Hk'.
  pose proof (js_set_plain k' v' diff (ordinary_not_proto k' Hk')) as Es.
  destruct (String.eqb_spec k k') as [->|N].
  - rewrite (getOwn_fresh k' rest Hk).
    destruct (negb (js_in k' old) || negb (member_eq (js_index old k') v'));
      [|reflexivity].
    rewrite Es. cbn [own]. apply getOwn_set.
  - destruct (negb (js_in k' old) || negb (member_eq (js_index old k') v'));
      [|reflexivity].
    rewrite Es. cbn [own]. now rewrite (getOwn_set_other k k' v' diff N).
Qed.

(** The loops of [patched] over ordinary keys change the own properties
    only. *)
Lemma js_set_entries (l : list (string * jsval)) (o : object) :
  Forall (fun key => ordinary key = true) (keys l) ->
  fold_left (fun o kv => js_set (fst kv) (snd kv) o) l o =
  Object (proto o)
         (fold_left (fun o kv => setOwn (fst kv) (snd kv) o) l (own o)).
Proof.
  revert o. induction l as [|[k v] l IH]; intros o Ho;
    [now destruct o|].
  inversion Ho as [|? ? Hk Ho']; subst. cbn [fold_left fst snd].
  rewrite (IH _ Ho'), (js_set_plain k v o (ordinary_not_proto k Hk)).
  reflexivity.
Qed.

Lemma js_delete_keys (l : list string) (o : object) :
  fold_left (fun o k => js_delete k o) l o =
  Object (proto o) (fold_left (fun o k => deleteOwn k o) l (own o)).
Proof.
  revert o. induction l as [|k l IH]; intros o; [now destruct o|].
  cbn [fold_left]. now rewrite IH.
Qed.

(** Two mappings with the prototype [Object.prototype] whose keys are no
    names of its members: removing the keys of [getDeletedKeys] from the
    old one and writing the entries of [getDiff] gives a mapping with the
    keys of the new one, each holding the value the new one holds or a
    value [===] it. *)
Theorem getDiff_getDeletedKeys_patch (oldFlat newFlat : object) (k : string) :
  proto oldFlat = Object_prototype ->
  proto newFlat = Object_prototype ->
  Forall (fun key => ordinary key = true) (keys oldFlat) ->
  Forall (fun key => ordinary key = true) (keys newFlat) ->
  distinct (keys newFlat) = true ->
  let result :=
    patched oldFlat (getDiff oldFlat newFlat) (getDeletedKeys oldFlat newFlat) in
  proto result = Object_prototype /\
  match getOwn k result, getOwn k newFlat with
  | Some u, Some v => u = v \/ strict_eq u v = true
  | None, None => True
  | _, _ => False
  end.
Proof.
  intros Hpo Hpn Hoo Hon Hd result. apply distinct_NoDup in Hd.
  destruct (getDiff_entries_keys oldFlat newFlat empty_object Hon)
    as [Hdn Hdk].
  fold (getDiff oldFlat newFlat) in Hdn, Hdk.
  assert (Hdiff : Forall (fun key => ordinary key = true)
                         (keys (getDiff oldFlat newFlat))).
  { apply Forall_forall. intros key Hkey. rewrite Forall_forall in Hon.
    destruct (Hdk key Hkey) as [G|[]]. now apply Hon. }
  assert (Er : result =
               Object Object_prototype
                 (fold_left (fun o kv => setOwn (fst kv) (snd kv) o)
                    (getDiff oldFlat newFlat)
                    (fold_left (fun o k => deleteOwn k o)
                       (getDeletedKeys oldFlat newFlat) oldFlat))).
  { unfold result, patched. rewrite (js_set_entries _ _ Hdiff), js_delete_keys.
    cbn [proto own]. now rewrite Hpo. }
  rewrite Er. cbn [proto own]. split; [reflexivity|].
  rewrite getOwn_written by (apply Hdn; constructor).
  unfold getDiff at 1.
  rewrite (getDiff_entries_get oldFlat newFlat empty_object k Hon Hd).
  rewrite getOwn_removed. cbn [getOwn empty_object own].
  assert (Hdel : set_has k (getDeletedKeys oldFlat newFlat) =
                 hasOwn k oldFlat && negb (js_in k newFlat)).
  { apply eq_true_iff_eq. rewrite set_has_In, andb_true_iff.
    unfold getDeletedKeys. rewrite filter_In, hasOwn_In. reflexivity. }
  rewrite Hdel. rewrite Forall_forall in Hoo, Hon.
  destruct (getOwn k newFlat) as [v|] eqn:En.
  - assert (Hin : hasOwn k newFlat = true) by now rewrite hasOwn_get, En.
    assert (Hk : ordinary k = true) by (apply Hon; now apply hasOwn_In).
    rewrite (js_in_own newFlat k Hin), andb_false_r.
    rewrite (js_in_ordinary oldFlat k Hpo Hk).
    rewrite (js_index_ordinary oldFlat k Hpo Hk). cbn [member_eq].
    unfold indexOwn. rewrite (hasOwn_get k oldFlat).
    destruct (getOwn k oldFlat) as [u|]; cbn [negb orb]; [|now left].
    destruct (strict_eq u v) eqn:Euv; cbn [negb]; [now right | now left].
  - destruct (hasOwn k oldFlat) eqn:Eo; cbn [andb].
    + assert (Hk : ordinary k = true) by (apply Hoo; now apply hasOwn_In).
      rewrite (js_in_ordinary newFlat k Hpn Hk), hasOwn_get, En. exact I.
    + rewrite hasOwn_get in Eo. now destruct (getOwn k oldFlat).
Qed.

(** A mapping with distinct keys none of whose values is [NaN], compared
    with itself, has nothing changed and nothing deleted. *)
Theorem getDiff_of_same_mapping (flat : object) :
  distinct (keys flat) = true ->
  Forall (fun kv => strict_eq (snd kv) (snd kv) = true) flat ->
  getDiff flat flat = empty_object /\ getDeletedKeys flat flat = [].
Proof.
  intros Hd Hs. apply distinct_NoDup in Hd. rewrite Forall_forall in Hs.
  split.
  - unfold getDiff.
    assert (G : forall entries,
               (forall k v, In (k, v) entries -> In (k, v) flat) ->
               getDiff_entries flat entries empty_object = empty_object).
    { induction entries as [|[k v] rest IH]; intros Hin; [reflexivity|].
      cbn [getDiff_entries].
      assert (Ek : getOwn k flat = Some v)
        by (apply In_getOwn; [exact Hd | apply Hin; now left]).
      assert (Eh : hasOwn k flat = true) by now rewrite hasOwn_get, Ek.
      rewrite (js_in_own flat k Eh), (js_index_own flat k v Ek).
      cbn [member_eq].
      assert (Ev : strict_eq v v = true)
        by (apply (Hs (k, v)), Hin; now left).
      rewrite Ev. cbn [negb orb]. apply IH. intros k' v' H'. apply Hin. now right. }
    apply G. auto.
  - unfold getDeletedKeys.
    assert (G : forall l, (forall k, In k l -> In k (keys flat)) ->
                          filter (fun key => negb (js_in key flat)) l = []).
    { induction l as [|k l IH]; intros Hin; [reflexivity|]. cbn [filter].
      assert (Ek : hasOwn k flat = true) by (apply hasOwn_In, Hin; now left).
      rewrite (js_in_own flat k Ek). cbn [negb]. apply IH.
      intros k' H'. apply Hin. now right. }
    apply G. auto.
Qed.

End DiffFacts.

(* ------------------------------------------------------------------ *)
(** ** types.js: [hasValueChanged] *)

Lemma number_eqb_sym (n m : number) : number_eqb n m = number_eqb m n.
Proof.
  unfold number_eqb, isNaN.
  destruct (String.eqb_spec (text n) (text m)) as [E|N].
  - now rewrite E, String.eqb_refl.
  - apply not_eq_sym, String.eqb_neq in N. now rewrite N, !andb_false_r.
Qed.

Lemma strict_eq_sym (a b : jsval) : strict_eq a b = strict_eq b a.
Proof.
  unfold strict_eq. destruct (val a), (val b); try reflexivity;
    auto using number_eqb_sym, String.eqb_sym, Nat.eqb_sym.
  destruct b0, b1; reflexivity.
Qed.

Section ComparisonFacts.
Context `{Engine}.

(** The order of the two values does not matter to [hasValueChanged]. *)
Theorem hasValueChanged_sym (a b : jsval) :
  hasValueChanged a b = hasValueChanged b a.
Proof.
  unfold hasValueChanged, nullish. rewrite (strict_eq_sym b a).
  destruct (strict_eq a b); [reflexivity|].
  rewrite (String.eqb_sym (JSON_stringify (val b))).
  rewrite (String.eqb_sym (getValueType (val b))).
  destruct (val a), (val b); reflexivity.
Qed.

(** Two values that [hasValueChanged] finds unchanged are written to the
    store as the same text, and under the same type tag unless both are
    [null] or [undefined]. *)
Theorem hasValueChanged_false_same_text (oldValue newValue : jsval) :
  (strict_eq oldValue newValue = true -> val oldValue = val newValue) ->
  hasValueChanged oldValue newValue = false ->
  serializeValue (val oldValue) = serializeValue (val newValue) /\
  (getValueType (val oldValue) = getValueType (val newValue) \/
   nullish oldValue = true /\ nullish newValue = true).
Proof.
  intros Hsame. unfold hasValueChanged.
  destruct (strict_eq oldValue newValue) eqn:Es.
  - intros _. rewrite (Hsame eq_refl). auto.
  - unfold nullish.
    destruct (val oldValue) eqn:Eo, (val newValue) eqn:En; cbn;
      try discriminate; try (intros _; split; [reflexivity | auto]);
      rewrite negb_false_iff, String.eqb_eq; intros ->; auto.
Qed.

End ComparisonFacts.

Lemma hasValueChanged_false_same_text_witness :
  let a := JsVal 1 (VArr [VNum 1; VNum 2]) in
  let b := JsVal 2 (VArr [VNum 1; VNum 2]) in
  (strict_eq a b = true -> val a = val b) /\
  hasValueChanged (H := engine_model) a b = false /\
  strict_eq a b = false /\
  serializeValue (H := engine_model) (val a) =
    serializeValue (H := engine_model) (val b) /\
  (getValueType (val a) = getValueType (val b) \/
   nullish a = true /\ nullish b = true).
Proof.
  cbv zeta.
  split; [discriminate | split; [reflexivity | split; [reflexivity|]]].
  exact (hasValueChanged_false_same_text (H := engine_model)
           (JsVal 1 (VArr [VNum 1; VNum 2])) (JsVal 2 (VArr [VNum 1; VNum 2]))
           (fun _ => eq_refl) eq_refl).
Defined.

(* ------------------------------------------------------------------ *)
(** ** The table under the statements of [save] *)

Lemma row_is_new objId p q sv vt :
  row_is objId p (Row objId q sv vt) = String.eqb p q.
Proof.
  unfold row_is. cbn [obj_id key_path].
  now rewrite String.eqb_refl, (String.eqb_sym q p).
Qed.

Lemma stored_row_upsert objId p q sv vt t :
  stored_row objId p (upsert objId q sv vt t) =
  if String.eqb p q then Some (Row objId q sv vt) else stored_row objId p t.
Proof.
  unfold stored_row. induction t as [|r t IH].
  - cbn [upsert find]. rewrite row_is_new. now destruct (String.eqb p q).
  - cbn [upsert]. destruct (row_is objId q r) eqn:E.
    + cbn [find]. rewrite row_is_new.
      destruct (String.eqb_spec p q) as [->|N]; [reflexivity|].
      apply row_is_spec in E. destruct E as [Eo Ep].
      assert (G : row_is objId p r = false).
      { unfold row_is. rewrite Ep. apply String.eqb_neq in N.
        rewrite String.eqb_sym in N. rewrite N. apply andb_false_r. }
      now rewrite G.
    + cbn [find]. rewrite IH.
      destruct (String.eqb_spec p q) as [->|N]; [now rewrite E|].
      reflexivity.
Qed.

Lemma primary_key_filter (g : row -> bool) t :
  primary_key t -> primary_key (filter g t).
Proof.
  unfold primary_key. induction t as [|r t IH]; intros Hn; [constructor|].
  inversion Hn as [|? ? Hk Hn']; subst. cbn [filter].
  destruct (g r); [|now apply IH]. cbn [map]. constructor; [|now apply IH].
  intros G. apply Hk. apply in_map_iff in G. destruct G as [r' [E Hr']].
  apply filter_In in Hr'. apply in_map_iff. exists r'. tauto.
Qed.

Lemma primary_key_upsert objId q sv vt t :
  primary_key t -> primary_key (upsert objId q sv vt t).
Proof.
  unfold primary_key. induction t as [|r t IH]; intros Hn.
  - repeat constructor. intros [].
  - inversion Hn as [|? ? Hk Hn']; subst. cbn [upsert].
    destruct (row_is objId q r) eqn:E.
    + apply row_is_spec in E. destruct E as [Eo Ep].
      cbn [map obj_id key_path]. rewrite <- Eo, <- Ep. exact Hn.
    + cbn [map]. constructor; [|now apply IH].
      intros G. apply in_map_iff in G. destruct G as [r' [Er Hr']].
      assert (Hcases : r' = Row objId q sv vt \/ In r' t).
      { clear - Hr'. induction t as [|r0 t IHt]; cbn [upsert] in Hr'.
        - destruct Hr' as [<-|[]]. now left.
        - destruct (row_is objId q r0).
          + destruct Hr' as [<-|G]; [now left | right; now right].
          + destruct Hr' as [<-|G]; [right; now left|].
            destruct (IHt G); [now left | right; now right]. }
      destruct Hcases as [->|Hin].
      * cbn [obj_id key_path] in Er. inversion Er as [[Eo Ep]].
        assert (G : row_is objId q r = true) by (apply row_is_spec; auto).
        congruence.
      * apply Hk. apply in_map_iff. now exists r'.
Qed.

Lemma primary_key_batch statements t :
  primary_key t -> primary_key (batch statements t).
Proof.
  unfold batch. revert t.
  induction statements as [|st statements IH]; intros t Hk; [exact Hk|].
  cbn [fold_left]. apply IH. destruct st; cbn [execute].
  - now apply primary_key_filter.
  - now apply primary_key_upsert.
Qed.

(** Under the primary key, the rows of one object have distinct paths. *)
Lemma select_distinct_paths objId t :
  primary_key t -> NoDup (map key_path (select objId t)).
Proof.
  unfold primary_key, select. induction t as [|r t IH]; intros Hn;
    [constructor|].
  inversion Hn as [|? ? Hk Hn']; subst. cbn [filter].
  destruct (String.eqb_spec (obj_id r) objId) as [Eo|N]; [|now apply IH].
  cbn [map]. constructor; [|now apply IH].
  intros G. apply in_map_iff in G. destruct G as [r' [Ep Hr']].
  apply filter_In in Hr'. destruct Hr' as [Hr' Eo'].
  apply String.eqb_eq in Eo'. apply Hk. apply in_map_iff. exists r'.
  split; [|exact Hr']. now rewrite Ep, Eo', Eo.
Qed.

Lemma find_select objId path t :
  find (fun r => String.eqb (key_path r) path) (select objId t) =
  stored_row objId path t.
Proof.
  unfold stored_row, select, row_is. induction t as [|r t IH]; [reflexivity|].
  cbn [filter find]. destruct (String.eqb (obj_id r) objId); cbn [find andb].
  - now rewrite IH.
  - exact IH.
Qed.

(** An assignment leaves the own properties under the other keys, and
    changes the keys by the one it writes, if any. *)
Lemma getOwn_js_set_other k k' v (o : object) :
  k <> k' -> getOwn k (js_set k' v o) = getOwn k o.
Proof.
  intros N. unfold js_set.
  destruct (negb (hasOwn k' o) && String.eqb k' "__proto__"
            && reaches_accessor (proto o)).
  - destruct (val v); reflexivity.
  - cbn [own]. now apply getOwn_set_other.
Qed.

Lemma In_keys_js_set k k' v (o : object) :
  k <> "__proto__" ->
  In k (keys (js_set k' v o)) <-> k = k' \/ In k (keys o).
Proof.
  intros N. unfold js_set.
  destruct (negb (hasOwn k' o) && String.eqb k' "__proto__"
            && reaches_accessor (proto o)) eqn:E.
  - apply andb_true_iff in E. destruct E as [E _].
    apply andb_true_iff in E. destruct E as [_ E].
    apply String.eqb_eq in E. subst k'.
    destruct (val v); cbn [own]; intuition congruence.
  - cbn [own]. apply In_keys_setOwn.
Qed.

Section TableFacts.
Context `{Engine}.

Lemma stored_row_upserts objId flat l t path :
  stored_row objId path (fold_left execute (map (upsert_of objId flat) l) t) =
  if set_has path l then
    Some (Row objId path
              (fst (toStorageFormat_member (js_index flat path)))
              (snd (toStorageFormat_member (js_index flat path))))
  else stored_row objId path t.
Proof.
  revert t. induction l as [|q l IH]; intros t; [reflexivity|].
  cbn [map fold_left set_has]. rewrite IH.
  destruct (set_has path l); [now rewrite orb_true_r|].
  rewrite orb_false_r. unfold upsert_of.
  destruct (String.eqb_spec path q) as [->|N].
  - destruct (toStorageFormat_member (js_index flat q)) as [sv vt].
    cbn [execute fst snd]. now rewrite stored_row_upsert, String.eqb_refl.
  - destruct (toStorageFormat_member (js_index flat q)) as [sv vt].
    cbn [execute]. rewrite stored_row_upsert.
    apply String.eqb_neq in N. now rewrite N.
Qed.

Lemma statements_of_upserts objId s :
  MaskQL.statements_of objId s =
  flat_map
    (fun path =>
       if js_in path (MaskQL.originalFlatData s) then [DELETE objId path]
       else [])
    (MaskQL.deletedPaths s)
  ++ map (upsert_of objId (MaskQL.flatData s)) (MaskQL.dirtyPaths s).
Proof. reflexivity. Qed.

(** The values of the mapping [use] builds from rows with distinct paths,
    at a path other than [__proto__]. *)
Lemma load_rows_get rows next s path :
  path <> "__proto__" ->
  NoDup (map key_path rows) ->
  option_map val (getOwn path (MaskQL.flatData (MaskQL.load_rows rows next s))) =
  match find (fun r => String.eqb (key_path r) path) rows with
  | Some r => Some (fromStorageFormat (value_text r) (value_type r))
  | None => option_map val (getOwn path (MaskQL.flatData s))
  end.
Proof.
  intros Np. revert next s. induction rows as [|r rows IH]; intros next s Hn;
    [reflexivity|].
  inversion Hn as [|? ? Hk Hn']; subst. cbn [MaskQL.load_rows find].
  rewrite (IH _ _ Hn'). cbn [MaskQL.flatData].
  destruct (String.eqb_spec (key_path r) path) as [E|N].
  - assert (G : find (fun r0 => String.eqb (key_path r0) path) rows = None).
    { destruct (find _ rows) as [r'|] eqn:E'; [|reflexivity].
      apply find_some in E'. destruct E' as [Hin E'].
      apply String.eqb_eq in E'. exfalso. apply Hk.
      apply in_map_iff. exists r'. split; [congruence | exact Hin]. }
    rewrite G, E, (js_set_plain path _ _ Np). cbn [own].
    now rewrite getOwn_set.
  - rewrite getOwn_js_set_other by congruence. reflexivity.
Qed.

Lemma load_rows_snapshot rows next s :
  MaskQL.flatData s = MaskQL.originalFlatData s ->
  MaskQL.flatData (MaskQL.load_rows rows next s) =
  MaskQL.originalFlatData (MaskQL.load_rows rows next s).
Proof.
  revert next s. induction rows as [|r rows IH]; intros next s E;
    [exact E|].
  cbn [MaskQL.load_rows]. apply IH. cbn. now rewrite E.
Qed.

End TableFacts.

(* ------------------------------------------------------------------ *)
(** ** index.js: loading and saving *)

Lemma table_after_warning (b : bool) (line : string) (c : d1_call) (w : world) :
  table (called c (if b then warned line w else w)) = table w.
Proof. destruct b; reflexivity. Qed.

Section LoadAndSave.
Context `{Engine}.

Lemma load_rows_keys rows next s k :
  k <> "__proto__" ->
  In k (keys (MaskQL.flatData (MaskQL.load_rows rows next s))) <->
  In k (map key_path rows) \/ In k (keys (MaskQL.flatData s)).
Proof.
  intros N. revert next s. induction rows as [|r rows IH]; intros next s.
  - simpl. tauto.
  - cbn [MaskQL.load_rows map In]. rewrite IH. cbn [MaskQL.flatData].
    rewrite (In_keys_js_set k _ _ _ N). intuition.
Qed.

(** A load that D1 answers leaves the instance on the object, with nothing
    pending, the cache equal to the snapshot, and for keys of the cache,
    [__proto__] apart, the paths stored for the object; the table is not
    touched. *)
Theorem use_loads_snapshot (objId : string) (s : MaskQL.session) (w : world) :
  isValidObjId objId = true ->
  let r := MaskQL.use objId None s w in
  fst (fst r) = Returned tt /\
  MaskQL.currentObjId (snd (fst r)) = Some objId /\
  MaskQL.dirtyPaths (snd (fst r)) = [] /\
  MaskQL.deletedPaths (snd (fst r)) = [] /\
  MaskQL.flatData (snd (fst r)) = MaskQL.originalFlatData (snd (fst r)) /\
  table (snd r) = table w /\
  forall path,
    path <> "__proto__" ->
    In path (keys (MaskQL.flatData (snd (fst r)))) <->
    In path (persisted_paths objId w).
Proof.
  intros Hid. cbv zeta. unfold MaskQL.use. rewrite Hid. cbn [negb fst snd].
  match goal with
  | |- context [MaskQL.load_rows ?rows ?next ?s0] =>
      destruct (load_rows_trackers rows next s0) as (E1 & E2 & E3);
      pose proof (load_rows_snapshot rows next s0 eq_refl) as E4;
      pose proof (load_rows_keys rows next s0) as E5
  end.
  cbn [MaskQL.currentObjId MaskQL.dirtyPaths MaskQL.deletedPaths
       MaskQL.flatData keys map] in E1, E2, E3, E5.
  repeat (split; [assumption || reflexivity|]).
  split; [apply table_after_warning|].
  intros path Np. rewrite (E5 path Np). unfold persisted_paths.
  rewrite table_after_warning. simpl. tauto.
Qed.

(** What one instance saves, any instance loads: after a [save] that D1
    accepts, a load of the same object holds, at every path other than
    [__proto__] that was dirty, the value decoded from the text and type
    tag written for what the saving instance read there. *)
Theorem save_then_use_restores
    (objId path : string) (s reader : MaskQL.session) (w : world) :
  MaskQL.currentObjId s = Some objId ->
  isValidObjId objId = true ->
  primary_key (table w) ->
  In path (MaskQL.dirtyPaths s) ->
  path <> "__proto__" ->
  let held := js_index (MaskQL.flatData s) path in
  let saved := MaskQL.save None s w in
  let loaded := MaskQL.use objId None reader (snd saved) in
  fst (fst saved) = Returned tt /\
  fst (fst loaded) = Returned tt /\
  exists v,
    js_index (MaskQL.flatData (snd (fst loaded))) path = Held v /\
    val v = fromStorageFormat (fst (toStorageFormat_member held))
                              (snd (toStorageFormat_member held)).
Proof.
  intros Hid Hvalid Hkey Hdirty Np held saved loaded.
  pose proof (isValidObjId_truthy objId Hvalid) as Ht.
  destruct (save_table s w objId Hid Ht) as [Eo Et]. fold saved in Eo, Et.
  split; [exact Eo|].
  unfold loaded, MaskQL.use. rewrite Hvalid. cbn [negb fst snd].
  split; [reflexivity|].
  match goal with
  | |- context [MaskQL.load_rows ?rows ?next ?s0] =>
      assert (E : option_map val
                    (getOwn path (MaskQL.flatData (MaskQL.load_rows rows next s0))) =
                  Some (fromStorageFormat (fst (toStorageFormat_member held))
                                          (snd (toStorageFormat_member held))));
      [|destruct (getOwn path (MaskQL.flatData (MaskQL.load_rows rows next s0)))
          as [v|] eqn:Ev; [|discriminate E]]
  end.
  - rewrite load_rows_get; [|exact Np|].
    + rewrite find_select, table_after_warning, Et, statements_of_upserts.
      unfold batch. rewrite fold_left_app, stored_row_upserts.
      apply set_has_In in Hdirty. rewrite Hdirty. reflexivity.
    + apply select_distinct_paths. rewrite table_after_warning, Et.
      now apply primary_key_batch.
  - exists v. split; [now apply js_index_own|].
    cbn [option_map] in E. now inversion E.
Qed.

(** After a [save] that D1 accepts the snapshot is a copy of the cache and
    nothing is pending, so a second [save] returns without a call to D1 and
    without a change, whatever D1 would answer. *)
Theorem save_twice_is_silent
    (objId : string) (rejected : option js_error)
    (s : MaskQL.session) (w : world) :
  MaskQL.currentObjId s = Some objId ->
  truthy objId = true ->
  let saved := MaskQL.save None s w in
  MaskQL.originalFlatData (snd (fst saved)) = spread (MaskQL.flatData s) /\
  MaskQL.flatData (snd (fst saved)) = MaskQL.flatData s /\
  MaskQL.save rejected (snd (fst saved)) (snd saved) =
    (Returned tt, snd (fst saved), snd saved).
Proof.
  intros Hid Ht. cbv zeta.
  assert (Es : exists w',
             MaskQL.save None s w =
             (Returned tt,
              MaskQL.Session (Some objId) (MaskQL.flatData s)
                             (spread (MaskQL.flatData s)) [] [], w')).
  { unfold MaskQL.save. rewrite Hid, Ht. cbn [negb].
    destruct (nonempty (MaskQL.statements_of objId s)); eexists; reflexivity. }
  destruct Es as [w' Es]. rewrite Es. cbn [fst snd].
  split; [reflexivity | split; [reflexivity|]].
  unfold MaskQL.save. cbn [MaskQL.currentObjId]. rewrite Ht. reflexivity.
Qed.

End LoadAndSave.

(* ------------------------------------------------------------------ *)
(** ** index.js: reading and writing in memory *)

Section ReadAndWrite.
Context `{Engine}.

Lemma js_index_set (path other : string) (value : jsval) (flat : object) :
  path <> "__proto__" ->
  js_index (js_set path value flat) other =
  if String.eqb other path then Held value else js_index flat other.
Proof.
  intros N. rewrite (js_set_plain path value flat N). unfold js_index.
  cbn [own proto]. destruct (String.eqb_spec other path) as [->|No].
  - now rewrite getOwn_set.
  - now rewrite getOwn_set_other.
Qed.

Lemma js_index_delete (path other : string) (flat : object) :
  other <> path ->
  js_index (js_delete path flat) other = js_index flat other.
Proof.
  intros N. unfold js_index, js_delete. cbn [own proto].
  rewrite getOwn_delete. apply String.eqb_neq in N. now rewrite N.
Qed.

(** A name that [o] does not inherit and has not for own property reads
    [undefined]. *)
Lemma js_index_missing (o : object) k :
  inherits o k = false -> getOwn k o = None -> js_index o k = Held undefined.
Proof.
  unfold inherits, js_in, js_index. cbn [own proto hasOwn orb].
  intros Hi ->. destruct (proto o) as [| |v].
  - destruct (String.eqb_spec k "__proto__") as [->|_]; [discriminate Hi|].
    destruct (String.eqb_spec k "constructor") as [->|_]; [discriminate Hi|].
    now rewrite Hi.
  - reflexivity.
  - now destruct (lookup v k).
Qed.

(** What [get] answers after a [set] or a [delete] on a loaded instance:
    at a path other than [__proto__] that was written, the value written;
    at a deleted path that names nothing inherited, [undefined]; at any
    other path, what it answered before. *)
Theorem get_after_set_and_delete
    (path other : string) (value : jsval) (s : MaskQL.session) :
  isValidPath path = true ->
  isValidPath other = true ->
  MaskQL.no_object s = false ->
  (path <> "__proto__" ->
   MaskQL.get other (snd (MaskQL.set path value s)) =
     (if String.eqb other path then Returned (Held value)
      else MaskQL.get other s)) /\
  (inherits (MaskQL.flatData s) path = false ->
   MaskQL.get other (snd (MaskQL.delete path s)) =
     (if String.eqb other path then Returned (Held undefined)
      else MaskQL.get other s)).
Proof.
  intros Hp Ho Hl. unfold MaskQL.set, MaskQL.delete, MaskQL.get.
  rewrite Hp, Ho, Hl. cbn [negb snd]. split.
  - intros Np. unfold MaskQL.no_object in *.
    cbn [MaskQL.currentObjId MaskQL.flatData].
    rewrite Hl, (js_index_set _ _ _ _ Np). now destruct (String.eqb other path).
  - intros Hi. destruct (js_in path (MaskQL.flatData s)) eqn:E; cbn [snd].
    + unfold MaskQL.no_object in *.
      cbn [MaskQL.currentObjId MaskQL.flatData]. rewrite Hl.
      destruct (String.eqb_spec other path) as [->|N].
      * f_equal. apply js_index_missing; [exact Hi|].
        cbn [js_delete own]. now rewrite getOwn_delete, String.eqb_refl.
      * now rewrite (js_index_delete _ _ _ N).
    + rewrite Hl. destruct (String.eqb_spec other path) as [->|N];
        [|reflexivity].
      f_equal. apply js_index_missing; [exact Hi|].
      apply getOwn_None. apply orb_false_iff in E. now destruct E.
Qed.

End ReadAndWrite.

(** The last call on a path decides what [save] prepares for it: after a
    [delete] no upsert of the path, after a [set] no delete of the path. *)
Theorem last_call_on_path_wins
    `{Engine} (path : string) (value : jsval) (s : MaskQL.session) :
  isValidPath path = true ->
  MaskQL.no_object s = false ->
  js_in path (MaskQL.flatData s) = true ->
  (forall objId target sv vt,
     ~ In (UPSERT target path sv vt)
          (MaskQL.statements_of objId (snd (MaskQL.delete path s)))) /\
  (forall objId target,
     ~ In (DELETE target path)
          (MaskQL.statements_of objId (snd (MaskQL.set path value s)))).
Proof.
  intros Hp Hl Hin. unfold MaskQL.set, MaskQL.delete.
  rewrite Hp, Hl, Hin. cbn [negb snd]. split.
  - intros objId target sv vt. rewrite statements_of_upserts, in_app_iff.
    cbn [MaskQL.dirtyPaths MaskQL.deletedPaths MaskQL.flatData
         MaskQL.originalFlatData].
    rewrite in_flat_map, in_map_iff. intros [[p [_ G]]|[p [E G]]].
    + destruct (js_in p (MaskQL.originalFlatData s));
        [destruct G as [G|[]]; discriminate | destruct G].
    + unfold upsert_of in E. destruct (toStorageFormat_member _) in E.
      inversion E; subst. apply In_set_delete in G. now destruct G.
  - intros objId target. rewrite statements_of_upserts, in_app_iff.
    cbn [MaskQL.dirtyPaths MaskQL.deletedPaths MaskQL.flatData
         MaskQL.originalFlatData].
    rewrite in_flat_map, in_map_iff. intros [[p [G E]]|[p [E _]]].
    + destruct (js_in p (MaskQL.originalFlatData s));
        [|destruct E]. destruct E as [E|[]]. inversion E; subst.
      destruct (set_has path (MaskQL.deletedPaths s)) eqn:Eh.
      * apply In_set_delete in G. now destruct G.
      * apply set_has_In in G. congruence.
    + unfold upsert_of in E. destruct (toStorageFormat_member _) in E. discriminate.
Qed.

(** Without a loaded object every call that needs one throws and leaves
    the instance and the environment as they are; [deleteObject] without an
    id has nothing to delete. *)
Theorem calls_without_object_throw
    `{Engine} (obj : value) (path : string) (value : jsval)
    (rejected : option js_error) (s : MaskQL.session) (w : world) :
  MaskQL.no_object s = true ->
  isValidPath path = true ->
  MaskQL.get path s = Thrown MaskQL.not_loaded /\
  MaskQL.set path value s = (Thrown MaskQL.not_loaded, s) /\
  MaskQL.delete path s = (Thrown MaskQL.not_loaded, s) /\
  MaskQL.setAll obj s = (Thrown MaskQL.not_loaded, s) /\
  MaskQL.getAll s = Thrown MaskQL.not_loaded /\
  MaskQL.save rejected s w = (Thrown MaskQL.not_loaded, s, w) /\
  MaskQL.deleteObject None rejected s w =
    (Thrown "No object ID specified for deletion", s, w).
Proof.
  intros Hn Hp.
  unfold MaskQL.get, MaskQL.set, MaskQL.delete, MaskQL.setAll, MaskQL.getAll,
    MaskQL.save, MaskQL.deleteObject.
  rewrite Hp, Hn. cbn [negb]. repeat (split; [reflexivity|]).
  unfold MaskQL.no_object in Hn.
  destruct (MaskQL.currentObjId s) as [objId|]; [|split; reflexivity].
  rewrite Hn. split; reflexivity.
Qed.

(* ------------------------------------------------------------------ *)
(** ** index.js: the rows of the other objects *)

Lemma select_other_upsert objId other path sv vt t :
  other <> objId ->
  select other (upsert objId path sv vt t) = select other t.
Proof.
  intros N. unfold select. induction t as [|r t IH].
  - cbn [upsert filter obj_id]. apply String.eqb_neq in N.
    rewrite String.eqb_sym in N. now rewrite N.
  - cbn [upsert]. destruct (row_is objId path r) eqn:E.
    + apply row_is_spec in E. destruct E as [Eo _].
      cbn [filter obj_id]. rewrite Eo. apply String.eqb_neq in N.
      rewrite String.eqb_sym in N. now rewrite N.
    + cbn [filter]. now rewrite IH.
Qed.

Lemma select_other_delete objId other path t :
  other <> objId ->
  select other (filter (fun r => negb (row_is objId path r)) t) =
  select other t.
Proof.
  intros N. unfold select. induction t as [|r t IH]; [reflexivity|].
  cbn [filter]. destruct (row_is objId path r) eqn:E; cbn [negb filter].
  - apply row_is_spec in E. destruct E as [Eo _]. rewrite Eo.
    apply String.eqb_neq in N. rewrite String.eqb_sym in N. now rewrite N.
  - now rewrite IH.
Qed.

Lemma select_delete_rows objId other t :
  select other (delete_rows objId t) =
  if String.eqb other objId then [] else select other t.
Proof.
  unfold select, delete_rows. induction t as [|r t IH];
    [now destruct (String.eqb other objId)|].
  cbn [filter].
  destruct (String.eqb_spec (obj_id r) objId) as [Eo|No]; cbn [negb filter].
  - rewrite IH, Eo. rewrite (String.eqb_sym objId other).
    now destruct (String.eqb other objId).
  - rewrite IH. destruct (String.eqb_spec other objId) as [->|N].
    + apply String.eqb_neq in No. now rewrite No.
    + reflexivity.
Qed.

Section OtherObjects.
Context `{Engine}.

(** The statements of [save] change no row of another object. *)
Lemma select_other_statements objId other s t :
  other <> objId ->
  select other (batch (MaskQL.statements_of objId s) t) = select other t.
Proof.
  intros N. rewrite statements_of_upserts. unfold batch.
  rewrite fold_left_app.
  assert (Hu : forall l t0,
             select other
               (fold_left execute
                  (map (upsert_of objId (MaskQL.flatData s)) l) t0) =
             select other t0).
  { induction l as [|p l IH]; intros t0; [reflexivity|].
    cbn [map fold_left]. rewrite IH. unfold upsert_of.
    destruct (toStorageFormat_member _). cbn [execute].
    now apply select_other_upsert. }
  assert (Hd : forall l t0,
             select other
               (fold_left execute
                  (flat_map
                     (fun path =>
                        if js_in path (MaskQL.originalFlatData s)
                        then [DELETE objId path] else []) l) t0) =
             select other t0).
  { induction l as [|p l IH]; intros t0; [reflexivity|]. cbn [flat_map].
    rewrite fold_left_app, IH.
    destruct (js_in p (MaskQL.originalFlatData s)); [|reflexivity].
    cbn [fold_left execute]. now apply select_other_delete. }
  now rewrite Hu, Hd.
Qed.

(** No call changes a row of an object that is neither the loaded one nor
    the one [deleteObject] is given. *)
Theorem step_keeps_other_objects
    (c : call) (other : string) (s : MaskQL.session) (w : world) :
  MaskQL.currentObjId s <> Some other ->
  (forall rejected, c <> CallDeleteObject (Some other) rejected) ->
  select other (table (snd (step c (s, w)))) = select other (table w).
Proof.
  intros Hcur Hc. destruct c; cbn [step snd]; try reflexivity.
  - unfold MaskQL.use. destruct (negb (isValidObjId objId)); [reflexivity|].
    destruct rejected; cbn [snd]; unfold allocated; cbn [table];
      now rewrite table_after_warning.
  - unfold MaskQL.save.
    destruct (MaskQL.currentObjId s) as [objId|]; [|reflexivity].
    destruct (negb (truthy objId)); [reflexivity|].
    destruct (nonempty _); [|reflexivity].
    destruct rejected; cbn [snd with_table table called]; [reflexivity|].
    apply select_other_statements. congruence.
  - unfold MaskQL.deleteObject.
    set (target := match objId with
                   | Some given =>
                       if truthy given then Some given
                       else MaskQL.currentObjId s
                   | None => MaskQL.currentObjId s
                   end).
    assert (Ht : target <> Some other).
    { unfold target. destruct objId as [given|]; [|exact Hcur].
      destruct (truthy given); [|exact Hcur].
      intros E. inversion E; subst. now apply (Hc rejected). }
    destruct target as [tgt|]; [|reflexivity].
    destruct (negb (truthy tgt)); [reflexivity|].
    destruct (negb (isValidObjId tgt)); [reflexivity|].
    destruct rejected; [reflexivity|].
    assert (E : select other (delete_rows tgt (table w)) =
                select other (table w)).
    { rewrite select_delete_rows.
      destruct (String.eqb_spec other tgt) as [->|N];
        [now contradiction Ht | reflexivity]. }
    destruct (MaskQL.currentObjId s) as [cur|];
      [destruct (String.eqb tgt cur)|]; exact E.
  - unfold MaskQL.exists_. destruct (negb (isValidObjId objId)); [reflexivity|].
    destruct rejected; reflexivity.
Qed.

End OtherObjects.

(** A [deleteObject] that D1 accepts leaves no row of the object, so that
    [exists] then answers no; the instance is reset when the object was the
    loaded one and is unchanged otherwise. *)
Theorem deleteObject_removes_object
    (target : string) (s : MaskQL.session) (w : world) :
  isValidObjId target = true ->
  let r := MaskQL.deleteObject (Some target) None s w in
  fst (fst r) = Returned tt /\
  persisted_paths target (snd r) = [] /\
  fst (fst (MaskQL.exists_ target None (snd (fst r)) (snd r))) =
    Returned false /\
  (MaskQL.currentObjId s = Some target -> snd (fst r) = MaskQL.constructor) /\
  (MaskQL.currentObjId s <> Some target -> snd (fst r) = s).
Proof.
  intros Hv. pose proof (isValidObjId_truthy target Hv) as Ht. cbv zeta.
  assert (Es : select target (delete_rows target (table w)) = [])
    by (rewrite select_delete_rows; now rewrite String.eqb_refl).
  assert (Er : exists s',
             MaskQL.deleteObject (Some target) None s w =
             (Returned tt, s',
              with_table (delete_rows target (table w))
                         (called (D1_run target) w)) /\
             (MaskQL.currentObjId s = Some target ->
              s' = MaskQL.constructor) /\
             (MaskQL.currentObjId s <> Some target -> s' = s)).
  { unfold MaskQL.deleteObject. rewrite Ht. cbn [negb].
    rewrite Ht, Hv. cbn [negb].
    destruct (MaskQL.currentObjId s) as [cur|].
    - destruct (String.eqb_spec target cur) as [->|N]; eexists;
        (split; [reflexivity|]); split; congruence.
    - eexists. split; [reflexivity|]. split; congruence. }
  destruct Er as (s' & Er & Hreset & Hkeep). rewrite Er. cbn [fst snd].
  unfold MaskQL.exists_, persisted_paths. rewrite Hv. cbn [negb fst snd].
  unfold with_table, called. cbn [table]. rewrite Es.
  repeat split; assumption.
Qed.

(** A load that D1 rejects throws, and still leaves the instance on the
    new object with an empty cache and snapshot: what was held or pending
    for the previous object is gone, and the calls that need a loaded object
    no longer throw. *)
Theorem use_rejected_switches_object
    `{Engine} (objId : string) (error : js_error)
    (s : MaskQL.session) (w : world) :
  isValidObjId objId = true ->
  let r := MaskQL.use objId (Some error) s w in
  fst (fst r) =
    Thrown (JsError ("Failed to load object " +++
                     String "034" (objId +++
                     String "034" (" from D1: " +++ message error)))
                    None) /\
  snd (fst r) =
    MaskQL.Session (Some objId) empty_object empty_object [] [] /\
  MaskQL.no_object (snd (fst r)) = false /\
  table (snd r) = table w.
Proof.
  intros Hv. pose proof (isValidObjId_truthy objId Hv) as Ht. cbv zeta.
  unfold MaskQL.use. rewrite Hv. cbn [negb fst snd].
  repeat split.
  - unfold new_Error. now rewrite in_quotes_append.
  - unfold MaskQL.no_object. cbn [MaskQL.currentObjId]. now rewrite Ht.
  - apply table_after_warning.
Qed.

(* ------------------------------------------------------------------ *)
(** ** index.js: what every program keeps *)

Section ProgramFacts.
Context `{Engine}.

Lemma step_current_valid c s w :
  current_valid s -> current_valid (fst (step c (s, w))).
Proof.
  unfold current_valid. intros Hs. destruct c; cbn [step fst snd];
    try exact Hs.
  - unfold MaskQL.use. destruct (isValidObjId objId) eqn:Ev; cbn [negb];
      [|exact Hs].
    destruct rejected; cbn [fst snd MaskQL.currentObjId]; [exact Ev|].
    match goal with
    | |- context [MaskQL.load_rows ?rows ?next ?s0] =>
        destruct (load_rows_trackers rows next s0) as (E1 & _)
    end.
    rewrite E1. exact Ev.
  - unfold MaskQL.set. destruct (negb (isValidPath path)); [exact Hs|].
    destruct (MaskQL.no_object s); exact Hs.
  - unfold MaskQL.delete. destruct (negb (isValidPath path)); [exact Hs|].
    destruct (MaskQL.no_object s); [exact Hs|].
    destruct (js_in path (MaskQL.flatData s)); exact Hs.
  - unfold MaskQL.setAll. destruct (MaskQL.no_object s); [exact Hs|].
    cbn [snd]. rewrite install_currentObjId. exact Hs.
  - unfold MaskQL.save.
    destruct (MaskQL.currentObjId s) as [objId|] eqn:Ec;
      [|cbn [fst]; now rewrite Ec].
    destruct (negb (truthy objId)); [cbn [fst]; now rewrite Ec|].
    destruct (nonempty _); [destruct rejected|];
      cbn [fst MaskQL.currentObjId]; try rewrite Ec; exact Hs.
  - unfold MaskQL.deleteObject.
    destruct (match objId with
              | Some given =>
                  if truthy given then Some given else MaskQL.currentObjId s
              | None => MaskQL.currentObjId s
              end) as [target|]; [|exact Hs].
    destruct (negb (truthy target)); [exact Hs|].
    destruct (negb (isValidObjId target)); [exact Hs|].
    destruct rejected; [exact Hs|].
    destruct (MaskQL.currentObjId s) as [current|] eqn:Ec;
      [|cbn [fst]; now rewrite Ec].
    destruct (String.eqb target current);
      [exact I | cbn [fst]; now rewrite Ec].
  - unfold MaskQL.exists_. destruct (negb (isValidObjId objId)); [exact Hs|].
    destruct rejected; exact Hs.
Qed.

(** Whatever the calls made on a new instance, and whether they return or
    throw, the object id the instance holds is [null] or an id that
    [isValidObjId] accepts. *)
Theorem run_current_valid (program : list call) (w : world) :
  current_valid (fst (run program (MaskQL.constructor, w))).
Proof.
  assert (G : forall s w0, current_valid s ->
                           current_valid (fst (run program (s, w0)))).
  { induction program as [|c program IH]; intros s w0 Hs; [exact Hs|].
    change (run (c :: program) (s, w0)) with (run program (step c (s, w0))).
    pose proof (step_current_valid c s w0 Hs) as Hs'.
    destruct (step c (s, w0)) as [s1 w1]. now apply IH. }
  apply G. exact I.
Qed.

Lemma hasOwn_js_set_other k k' v (o : object) :
  k <> k' -> hasOwn k (js_set k' v o) = hasOwn k o.
Proof.
  intros N. now rewrite !hasOwn_get, getOwn_js_set_other.
Qed.

Lemma step_tracked c s w :
  is_setAll c = false -> tracked s -> tracked (fst (step c (s, w))).
Proof.
  intros Hc [Hd Hx]. destruct c; cbn [step fst snd] in *;
    try discriminate; try (split; assumption).
  - unfold MaskQL.use. destruct (negb (isValidObjId objId));
      [split; assumption|].
    destruct rejected; cbn [fst snd].
    + split; [intros p [] | intros p []].
    + match goal with
      | |- context [MaskQL.load_rows ?rows ?next ?s0] =>
          destruct (load_rows_trackers rows next s0) as (_ & E2 & E3)
      end.
      split; intros p Hp; [rewrite E2 in Hp | rewrite E3 in Hp];
        destruct Hp.
  - unfold MaskQL.set. destruct (negb (isValidPath path));
      [split; assumption|].
    destruct (MaskQL.no_object s); [split; assumption|]. cbn [snd].
    split; intros p Hp;
      cbn [MaskQL.dirtyPaths MaskQL.deletedPaths MaskQL.flatData] in *.
    + intros Np. destruct (String.eqb_spec p path) as [->|N].
      * rewrite (js_set_plain path _ _ Np). cbn [own].
        now rewrite hasOwn_set, String.eqb_refl.
      * rewrite (hasOwn_js_set_other p path _ _ N). apply Hd; [|exact Np].
        destruct (negb (member_eq _ _)); [|exact Hp].
        apply In_set_add in Hp. destruct Hp; [contradiction | assumption].
    + assert (N : p <> path /\ In p (MaskQL.deletedPaths s)).
      { destruct (set_has path (MaskQL.deletedPaths s)) eqn:E.
        - now apply In_set_delete in Hp.
        - split; [|exact Hp]. intros ->. apply set_has_In in Hp. congruence. }
      destruct N as [N Hp'].
      rewrite (hasOwn_js_set_other p path _ _ N). now apply Hx.
  - unfold MaskQL.delete. destruct (negb (isValidPath path));
      [split; assumption|].
    destruct (MaskQL.no_object s); [split; assumption|].
    destruct (js_in path (MaskQL.flatData s)); [|split; assumption].
    cbn [snd]. split; intros p Hp;
      cbn [MaskQL.dirtyPaths MaskQL.deletedPaths MaskQL.flatData
           js_delete own] in *;
      rewrite hasOwn_delete.
    + intros Np. apply In_set_delete in Hp. destruct Hp as [N Hp].
      apply String.eqb_neq in N. rewrite N. cbn [negb andb]. now apply Hd.
    + apply In_set_add in Hp. destruct Hp as [->|Hp].
      * now rewrite String.eqb_refl.
      * rewrite (Hx p Hp). apply andb_false_r.
  - unfold MaskQL.save.
    destruct (MaskQL.currentObjId s) as [objId|]; [|split; assumption].
    destruct (negb (truthy objId)); [split; assumption|].
    destruct (nonempty _); [destruct rejected|]; cbn [fst snd];
      try (split; assumption); split; intros p [].
  - unfold MaskQL.deleteObject.
    destruct (match objId with
              | Some given =>
                  if truthy given then Some given else MaskQL.currentObjId s
              | None => MaskQL.currentObjId s
              end) as [target|]; [|split; assumption].
    destruct (negb (truthy target)); [split; assumption|].
    destruct (negb (isValidObjId target)); [split; assumption|].
    destruct rejected; [split; assumption|].
    destruct (MaskQL.currentObjId s) as [current|]; [|split; assumption].
    destruct (String.eqb target current); [|split; assumption].
    split; intros p [].
  - unfold MaskQL.exists_. destruct (negb (isValidObjId objId));
      [split; assumption|].
    destruct rejected; split; assumption.
Qed.

(** As long as [setAll] is not called, whatever the other calls on a new
    instance and however they end, every dirty path other than [__proto__]
    is an own property of the cache, no deleted path is, and no path is both
    dirty and deleted. *)
Theorem run_tracked (program : list call) (w : world) :
  forallb (fun c => negb (is_setAll c)) program = true ->
  tracked (fst (run program (MaskQL.constructor, w))) /\
  disjoint_trackers (fst (run program (MaskQL.constructor, w))).
Proof.
  intros Hp.
  assert (G : forall s w0, tracked s -> tracked (fst (run program (s, w0)))).
  { induction program as [|c program IH]; intros s w0 Hs; [exact Hs|].
    simpl in Hp. apply andb_true_iff in Hp. destruct Hp as [Hc Hp].
    apply negb_true_iff in Hc.
    change (run (c :: program) (s, w0)) with (run program (step c (s, w0))).
    pose proof (step_tracked c s w0 Hc Hs) as Hs'.
    destruct (step c (s, w0)) as [s1 w1]. now apply IH. }
  split; [apply G; split; intros p [] |].
  apply run_disjoint_trackers; [exact Hp | intros p []].
Qed.

Lemma install_flatData entries s :
  hasOwn "__proto__" entries = false ->
  MaskQL.flatData (MaskQL.install entries s) =
  Object (proto (MaskQL.flatData s))
    (fold_left (fun o kv => setOwn (fst kv) (snd kv) o)
               (map (fun kv => (fst kv, JsVal 0 (snd kv))) entries)
               (MaskQL.flatData s)).
Proof.
  revert s. induction entries as [|[p v] rest IH]; intros s Hp;
    [cbn [MaskQL.install map fold_left]; now destruct (MaskQL.flatData s)|].
  cbn [hasOwn] in Hp. apply orb_false_iff in Hp. destruct Hp as [Np Hp].
  apply String.eqb_neq in Np.
  cbn [MaskQL.install map fold_left fst snd]. rewrite (IH _ Hp).
  cbn [MaskQL.flatData].
  now rewrite (js_set_plain p _ _ (not_eq_sym Np)).
Qed.

(** [getAll] after [setAll] on a loaded instance is [unflatten] of
    [flatten] of the object given. *)
Theorem getAll_after_setAll (obj : value) (s : MaskQL.session) :
  MaskQL.no_object s = false ->
  MaskQL.getAll (snd (MaskQL.setAll obj s)) =
    Returned (unflatten (flatten obj "" [])).
Proof.
  intros Hl. unfold MaskQL.setAll. rewrite Hl. cbn [snd].
  unfold MaskQL.getAll, MaskQL.no_object in *.
  rewrite install_currentObjId. cbn [MaskQL.currentObjId]. rewrite Hl.
  destruct (flatten_output obj "") as (Hn & _ & Hp).
  rewrite (install_flatData _ _ Hp). cbn [MaskQL.flatData own empty_object].
  rewrite fold_setOwn_fresh.
  - cbn [app]. rewrite map_map. cbn [fst snd val].
    f_equal. f_equal. rewrite <- (map_id (flatten obj "" [])) at 2.
    apply map_ext. now intros [k v].
  - unfold keys. rewrite map_map. cbn [fst]. exact Hn.
  - intros k _ [].
Qed.

End ProgramFacts.

(* ------------------------------------------------------------------ *)
(** ** The further properties on the examples *)

Lemma sample_world_primary_key : primary_key (table sample_world).
Proof.
  unfold primary_key. cbn. repeat constructor; cbn; intuition discriminate.
Qed.

Lemma edited_user1_primary_key : primary_key (table (snd edited_user1)).
Proof. exact sample_world_primary_key. Qed.

Lemma save_then_use_restores_witness :
  MaskQL.currentObjId (fst edited_user1) = Some "user:1" /\
  In "profile.age" (MaskQL.dirtyPaths (fst edited_user1)) /\
  let held :=
    js_index (H := engine_model) (MaskQL.flatData (fst edited_user1))
             "profile.age" in
  let saved :=
    MaskQL.save (H := engine_model) None (fst edited_user1) (snd edited_user1) in
  let loaded :=
    MaskQL.use (H := engine_model) "user:1" None MaskQL.constructor (snd saved) in
  held = Held (JsVal 0 (VNum 31)) /\
  fst (fst saved) = Returned tt /\
  fst (fst loaded) = Returned tt /\
  exists v,
    js_index (H := engine_model) (MaskQL.flatData (snd (fst loaded)))
             "profile.age" = Held v /\
    val v = fromStorageFormat (H := engine_model)
              (fst (toStorageFormat_member (H := engine_model) held))
              (snd (toStorageFormat_member (H := engine_model) held)).
Proof.
  assert (N : "profile.age" <> "__proto__") by discriminate.
  split; [reflexivity | split; [now left|]]. cbv zeta.
  split; [reflexivity|].
  exact (save_then_use_restores (H := engine_model) "user:1" "profile.age"
           (fst edited_user1) MaskQL.constructor (snd edited_user1)
           eq_refl eq_refl edited_user1_primary_key (or_introl eq_refl) N).
Defined.

Lemma getDiff_getDeletedKeys_patch_witness :
  distinct (keys new_flat) = true /\
  getDiff (H := engine_model) old_flat new_flat =
    Object Object_prototype
      [("b", JsVal 0 (VStr "y")); ("d", JsVal 0 (VBool true))] /\
  getDeletedKeys (H := engine_model) old_flat new_flat = ["c"] /\
  let result :=
    patched old_flat (getDiff (H := engine_model) old_flat new_flat)
            (getDeletedKeys (H := engine_model) old_flat new_flat) in
  proto result = Object_prototype /\
  match getOwn "b" result, getOwn "b" new_flat with
  | Some u, Some v => u = v \/ strict_eq u v = true
  | None, None => True
  | _, _ => False
  end.
Proof.
  assert (Ho : Forall (fun key => ordinary key = true) (keys old_flat))
    by (repeat constructor).
  assert (Hn : Forall (fun key => ordinary key = true) (keys new_flat))
    by (repeat constructor).
  split; [reflexivity | split; [reflexivity | split; [reflexivity|]]].
  exact (getDiff_getDeletedKeys_patch (H := engine_model) old_flat new_flat "b"
           eq_refl eq_refl Ho Hn eq_refl).
Defined.

Lemma getDiff_of_same_mapping_witness :
  distinct (keys old_flat) = true /\
  getDiff (H := engine_model) old_flat old_flat = empty_object /\
  getDeletedKeys (H := engine_model) old_flat old_flat = [].
Proof.
  assert (Hs : Forall (fun kv => strict_eq (snd kv) (snd kv) = true) old_flat)
    by (repeat constructor).
  split; [reflexivity|].
  exact (getDiff_of_same_mapping (H := engine_model) old_flat eq_refl Hs).
Defined.

Lemma run_tracked_witness :
  forallb (fun c => negb (is_setAll c)) edit_program = true /\
  tracked (fst (run (H := engine_model) edit_program
                    (MaskQL.constructor, sample_world))) /\
  disjoint_trackers (fst (run (H := engine_model) edit_program
                              (MaskQL.constructor, sample_world))).
Proof.
  split; [reflexivity|].
  exact (run_tracked (H := engine_model) edit_program sample_world eq_refl).
Defined.

Lemma get_after_set_and_delete_witness :
  isValidPath "profile.name" = true /\
  isValidPath "profile.age" = true /\
  MaskQL.no_object (fst loaded_user1) = false /\
  ("profile.name" <> "__proto__" ->
   MaskQL.get (H := engine_model) "profile.age"
     (snd (MaskQL.set (H := engine_model) "profile.name"
                      (JsVal 0 (VStr "Alice")) (fst loaded_user1))) =
     (if String.eqb "profile.age" "profile.name"
      then Returned (Held (JsVal 0 (VStr "Alice")))
      else MaskQL.get (H := engine_model) "profile.age" (fst loaded_user1))) /\
  (inherits (H := engine_model) (MaskQL.flatData (fst loaded_user1))
            "profile.name" = false ->
   MaskQL.get (H := engine_model) "profile.age"
     (snd (MaskQL.delete (H := engine_model) "profile.name"
                         (fst loaded_user1))) =
     (if String.eqb "profile.age" "profile.name"
      then Returned (Held undefined)
      else MaskQL.get (H := engine_model) "profile.age" (fst loaded_user1))).
Proof.
  split; [reflexivity | split; [reflexivity | split; [reflexivity|]]].
  exact (get_after_set_and_delete (H := engine_model)
           "profile.name" "profile.age"
           (JsVal 0 (VStr "Alice")) (fst loaded_user1)
           eq_refl eq_refl eq_refl).
Defined.

Lemma save_twice_is_silent_witness :
  MaskQL.currentObjId (fst edited_user1) = Some "user:1" /\
  truthy "user:1" = true /\
  let saved :=
    MaskQL.save (H := engine_model) None (fst edited_user1) (snd edited_user1) in
  MaskQL.originalFlatData (snd (fst saved)) =
    spread (MaskQL.flatData (fst edited_user1)) /\
  MaskQL.flatData (snd (fst saved)) = MaskQL.flatData (fst edited_user1) /\
  MaskQL.save (H := engine_model) (Some no_such_table)
              (snd (fst saved)) (snd saved) =
    (Returned tt, snd (fst saved), snd saved).
Proof.
  split; [reflexivity | split; [reflexivity|]].
  exact (save_twice_is_silent (H := engine_model) "user:1" (Some no_such_table)
           (fst edited_user1) (snd edited_user1) eq_refl eq_refl).
Defined.

Lemma step_keeps_other_objects_witness :
  MaskQL.currentObjId (fst edited_user1) <> Some "user:2" /\
  (forall rejected, CallSave None <> CallDeleteObject (Some "user:2") rejected) /\
  select "user:2"
    (table (snd (step (H := engine_model) (CallSave None) edited_user1))) =
    select "user:2" (table (snd edited_user1)).
Proof.
  assert (H1 : MaskQL.currentObjId (fst edited_user1) <> Some "user:2")
    by discriminate.
  assert (H2 : forall rejected,
             CallSave None <> CallDeleteObject (Some "user:2") rejected)
    by discriminate.
  split; [exact H1 | split; [exact H2|]].
  exact (step_keeps_other_objects (H := engine_model) (CallSave None) "user:2"
           (fst edited_user1) (snd edited_user1) H1 H2).
Defined.

Lemma deleteObject_removes_object_witness :
  isValidObjId "user:2" = true /\
  let r :=
    MaskQL.deleteObject (Some "user:2") None (fst loaded_user1)
                        (snd loaded_user1) in
  fst (fst r) = Returned tt /\
  persisted_paths "user:2" (snd r) = [] /\
  fst (fst (MaskQL.exists_ "user:2" None (snd (fst r)) (snd r))) =
    Returned false /\
  (MaskQL.currentObjId (fst loaded_user1) = Some "user:2" ->
   snd (fst r) = MaskQL.constructor) /\
  (MaskQL.currentObjId (fst loaded_user1) <> Some "user:2" ->
   snd (fst r) = fst loaded_user1).
Proof.
  split; [reflexivity|].
  exact (deleteObject_removes_object "user:2" (fst loaded_user1)
           (snd loaded_user1) eq_refl).
Defined.

Lemma use_rejected_switches_object_witness :
  isValidObjId "user:2" = true /\
  let r :=
    MaskQL.use (H := engine_model) "user:2" (Some no_such_table)
               (fst edited_user1) (snd edited_user1) in
  fst (fst r) =
    Thrown (JsError ("Failed to load object " +++
                     String "034" ("user:2" +++
                     String "034" (" from D1: " +++ message no_such_table)))
                    None) /\
  snd (fst r) =
    MaskQL.Session (Some "user:2") empty_object empty_object [] [] /\
  MaskQL.no_object (snd (fst r)) = false /\
  table (snd r) = table (snd edited_user1).
Proof.
  split; [reflexivity|].
  exact (use_rejected_switches_object (H := engine_model) "user:2"
           no_such_table (fst edited_user1) (snd edited_user1) eq_refl).
Defined.

Lemma calls_without_object_throw_witness :
  MaskQL.no_object MaskQL.constructor = true /\
  isValidPath "profile.name" = true /\
  MaskQL.get (H := engine_model) "profile.name" MaskQL.constructor =
    Thrown MaskQL.not_loaded /\
  MaskQL.set (H := engine_model) "profile.name" (JsVal 0 (VStr "Alice"))
             MaskQL.constructor =
    (Thrown MaskQL.not_loaded, MaskQL.constructor) /\
  MaskQL.delete (H := engine_model) "profile.name" MaskQL.constructor =
    (Thrown MaskQL.not_loaded, MaskQL.constructor) /\
  MaskQL.setAll (H := engine_model) sample_document MaskQL.constructor =
    (Thrown MaskQL.not_loaded, MaskQL.constructor) /\
  MaskQL.getAll (H := engine_model) MaskQL.constructor =
    Thrown MaskQL.not_loaded /\
  MaskQL.save (H := engine_model) None MaskQL.constructor sample_world =
    (Thrown MaskQL.not_loaded, MaskQL.constructor, sample_world) /\
  MaskQL.deleteObject None None MaskQL.constructor sample_world =
    (Thrown "No object ID specified for deletion", MaskQL.constructor,
     sample_world).
Proof.
  split; [reflexivity | split; [reflexivity|]].
  exact (calls_without_object_throw (H := engine_model) sample_document
           "profile.name" (JsVal 0 (VStr "Alice")) None
           MaskQL.constructor sample_world eq_refl eq_refl).
Defined.

Lemma getAll_after_setAll_witness :
  MaskQL.no_object (fst loaded_user1) = false /\
  MaskQL.getAll (H := engine_model)
    (snd (MaskQL.setAll (H := engine_model) sample_document (fst loaded_user1))) =
    Returned (unflatten (H := engine_model)
                (flatten (H := engine_model) sample_document "" [])).
Proof.
  split; [reflexivity|].
  exact (getAll_after_setAll (H := engine_model) sample_document
           (fst loaded_user1) eq_refl).
Defined.

Lemma use_loads_snapshot_witness :
  isValidObjId "user:1" = true /\
  let r :=
    MaskQL.use (H := engine_model) "user:1" None (fst drafted_user1)
               (snd drafted_user1) in
  fst (fst r) = Returned tt /\
  MaskQL.currentObjId (snd (fst r)) = Some "user:1" /\
  MaskQL.dirtyPaths (snd (fst r)) = [] /\
  MaskQL.deletedPaths (snd (fst r)) = [] /\
  MaskQL.flatData (snd (fst r)) = MaskQL.originalFlatData (snd (fst r)) /\
  table (snd r) = table (snd drafted_user1) /\
  forall path,
    path <> "__proto__" ->
    In path (keys (MaskQL.flatData (snd (fst r)))) <->
    In path (persisted_paths "user:1" (snd drafted_user1)).
Proof.
  split; [reflexivity|].
  exact (use_loads_snapshot (H := engine_model) "user:1" (fst drafted_user1)
           (snd drafted_user1) eq_refl).
Defined.

Lemma last_call_on_path_wins_witness :
  isValidPath "profile.age" = true /\
  MaskQL.no_object (fst edited_user1) = false /\
  js_in (H := engine_model) "profile.age" (MaskQL.flatData (fst edited_user1)) =
    true /\
  (forall objId target sv vt,
     ~ In (UPSERT target "profile.age" sv vt)
          (MaskQL.statements_of (H := engine_model) objId
             (snd (MaskQL.delete (H := engine_model) "profile.age"
                                 (fst edited_user1))))) /\
  (forall objId target,
     ~ In (DELETE target "profile.age")
          (MaskQL.statements_of (H := engine_model) objId
             (snd (MaskQL.set (H := engine_model) "profile.age"
                              (JsVal 0 (VNum 32)) (fst edited_user1))))).
Proof.
  split; [reflexivity | split; [reflexivity | split; [reflexivity|]]].
  exact (last_call_on_path_wins (H := engine_model) "profile.age"
           (JsVal 0 (VNum 32)) (fst edited_user1) eq_refl eq_refl eq_refl).
Defined.
